(** * safety-law-tracker: the query surface of the law-revision tracker

    A shallow embedding of the two React components of the repository,

    - [src/LawTracker.jsx]: the memoised [filtered] list (filter, score, sort)
      over the fetched [items] snapshot, with [daysBetween];
    - [safety-law-tracker-fixed.jsx]: [filteredRevisions], [getStageInfo] and
      the per-stage badge counts over the built-in [sampleRevisions];

    followed by the properties of the query surface stated in the
    specification.

    Modelling conventions.
    - A JavaScript string is its sequence of UTF-16 code units ([list N]).
    - [undefined]/[null] is [None]; a property that holds a string is an
      [option jsstring].  A property compared with [===] against a string or
      defaulted with [||] behaves, when it holds a non-string, like an absent
      or unlisted string, so strings are the only values kept.
    - JavaScript numbers are used at integer values only (scores, whole days,
      epoch milliseconds below 2^53), where double arithmetic is exact; they
      are [Z], and [NaN] is [None].
    - [new Date(s).getTime()] is a library function of the host: the
      development is parametric in it ([Date_getTime]); the examples
      instantiate it with the ECMAScript date-only format [YYYY-MM-DD]. *)

From Stdlib Require Import ZArith NArith List String Ascii Lia Bool Sorted.
From stdpp Require Import base option list.
Import ListNotations.

Local Open Scope Z_scope.
Local Open Scope list_scope.

(** ** JavaScript strings *)

Module Js.

Definition jsstring := list N.

(** Literals are written as Rocq strings (their bytes are UTF-8) and decoded
    to code units; a code point above U+FFFF becomes a surrogate pair. *)

Fixpoint utf16 (bs : list N) : jsstring :=
  match bs with
  | [] => []
  | b0 :: r0 =>
    if (b0 <? 128)%N then b0 :: utf16 r0
    else if (b0 <? 224)%N then
      match r0 with
      | b1 :: r1 => ((b0 - 192) * 64 + (b1 - 128))%N :: utf16 r1
      | _ => []
      end
    else if (b0 <? 240)%N then
      match r0 with
      | b1 :: b2 :: r2 =>
        ((b0 - 224) * 4096 + (b1 - 128) * 64 + (b2 - 128))%N :: utf16 r2
      | _ => []
      end
    else
      match r0 with
      | b1 :: b2 :: b3 :: r3 =>
        let cp := ((b0 - 240) * 262144 + (b1 - 128) * 4096
                   + (b2 - 128) * 64 + (b3 - 128) - 65536)%N in
        (55296 + cp / 1024)%N :: (56320 + cp mod 1024)%N :: utf16 r3
      | _ => []
      end
  end.

Definition js (s : string) : jsstring :=
  utf16 (List.map N_of_ascii (list_ascii_of_string s)).

Fixpoint str_eqb (s t : jsstring) : bool :=
  match s, t with
  | [], [] => true
  | c :: s', d :: t' => (c =? d)%N && str_eqb s' t'
  | _, _ => false
  end.

(** [v === s] for a property [v] that may be absent and a string [s]. *)
Definition strict_eqb (v : option jsstring) (s : jsstring) : bool :=
  match v with
  | Some t => str_eqb t s
  | None => false
  end.

(** [!s] for a string: only the empty string is falsy. *)
Definition is_empty (s : jsstring) : bool :=
  match s with
  | [] => true
  | _ :: _ => false
  end.

(** [v || d] for a property that is a string when present. *)
Definition or_else (v : option jsstring) (d : jsstring) : jsstring :=
  match v with
  | Some (c :: s) => c :: s
  | _ => d
  end.

(** [l || []] for a property that is an array when present. *)
Definition or_nil {A} (l : option (list A)) : list A :=
  match l with
  | Some xs => xs
  | None => []
  end.

(** [Array.prototype.filter(Boolean)] on an array of strings and absent
    values: absent values and empty strings are dropped. *)
Fixpoint filter_Boolean (vs : list (option jsstring)) : list jsstring :=
  match vs with
  | [] => []
  | Some (c :: s) :: rest => (c :: s) :: filter_Boolean rest
  | _ :: rest => filter_Boolean rest
  end.

(** [Array.prototype.join(sep)] on an array of strings. *)
Fixpoint join (sep : jsstring) (parts : list jsstring) : jsstring :=
  match parts with
  | [] => []
  | [p] => p
  | p :: rest => p ++ sep ++ join sep rest
  end.

Fixpoint startsWith (s p : jsstring) : bool :=
  match p, s with
  | [], _ => true
  | c :: p', d :: s' => (c =? d)%N && startsWith s' p'
  | _ :: _, [] => false
  end.

(** [String.prototype.includes]: [t] occurs in [s] at some position. *)
Fixpoint includes (s t : jsstring) : bool :=
  startsWith s t ||
  match s with
  | [] => false
  | _ :: s' => includes s' t
  end.

(** The code units [String.prototype.trim] strips: ECMAScript WhiteSpace and
    LineTerminator. *)
Definition isWhiteSpace (c : N) : bool :=
  existsb (N.eqb c)
    [9; 10; 11; 12; 13; 32; 160; 5760; 8232; 8233; 8239; 8287; 12288; 65279]%N
  || ((8192 <=? c)%N && (c <=? 8202)%N).

Fixpoint trimStart (s : jsstring) : jsstring :=
  match s with
  | [] => []
  | c :: s' => if isWhiteSpace c then trimStart s' else s
  end.

Definition trimEnd (s : jsstring) : jsstring := rev (trimStart (rev s)).

Definition trim (s : jsstring) : jsstring := trimEnd (trimStart s).

(** [Array.prototype.sort(comparefn)].  The comparator returns a number; a
    [NaN] result counts as [+0].  The array is sorted by stable insertion:
    an element moves behind exactly the elements it must follow.  For a
    consistent comparator this is the result the language prescribes (the
    sort is stable since ES2019). *)
Definition SortCompare {A} (comparefn : A -> A -> option Z) (x y : A) : Z :=
  default 0 (comparefn x y).

Fixpoint insert_sorted {A} (comparefn : A -> A -> option Z) (x : A) (l : list A)
  : list A :=
  match l with
  | [] => [x]
  | y :: l' =>
    if 0 <? SortCompare comparefn x y
    then y :: insert_sorted comparefn x l'
    else x :: l
  end.

Definition sort {A} (comparefn : A -> A -> option Z) (l : list A) : list A :=
  foldr (insert_sorted comparefn) [] l.

(** [a - b] on numbers that may be [NaN]. *)
Definition num_sub (a b : option Z) : option Z :=
  match a, b with
  | Some x, Some y => Some (x - y)
  | _, _ => None
  end.

End Js.

Export Js.

(** ** Dates: the ECMAScript date-only format

    [date_only s] is the time value of [new Date(s)] for [s] of the form
    [YYYY-MM-DD] naming a day of the calendar: midnight UTC of that day in
    milliseconds since the epoch.  Any other string is [None] here; the
    theorems do not depend on this choice, they hold for every
    [Date_getTime]. *)

Module IsoDate.

Definition msPerDay : Z := 1000 * 60 * 60 * 24.

Definition digit (c : N) : option Z :=
  if ((48 <=? c) && (c <=? 57))%N then Some (Z.of_N c - 48) else None.

Fixpoint number (acc : Z) (cs : list N) : option Z :=
  match cs with
  | [] => Some acc
  | c :: cs' =>
    match digit c with
    | Some d => number (acc * 10 + d) cs'
    | None => None
    end
  end.

Definition isLeap (y : Z) : bool :=
  ((y mod 4 =? 0) && negb (y mod 100 =? 0)) || (y mod 400 =? 0).

Definition daysInMonth (y m : Z) : Z :=
  if m =? 2 then (if isLeap y then 29 else 28)
  else if (m =? 4) || (m =? 6) || (m =? 9) || (m =? 11) then 30
  else 31.

(** Days from 1970-01-01 to the civil date [y]-[m]-[d]. *)
Definition daysFromCivil (y m d : Z) : Z :=
  let y' := if m <=? 2 then y - 1 else y in
  let era := y' / 400 in
  let yoe := y' - era * 400 in
  let doy := (153 * (if 2 <? m then m - 3 else m + 9) + 2) / 5 + d - 1 in
  let doe := yoe * 365 + yoe / 4 - yoe / 100 + doy in
  era * 146097 + doe - 719468.

Definition date_only (s : jsstring) : option Z :=
  match s with
  | [y1; y2; y3; y4; 45%N; m1; m2; 45%N; d1; d2] =>
    match number 0 [y1; y2; y3; y4], number 0 [m1; m2], number 0 [d1; d2] with
    | Some y, Some m, Some d =>
      if (1 <=? m) && (m <=? 12) && (1 <=? d) && (d <=? daysInMonth y m)
      then Some (daysFromCivil y m d * msPerDay)
      else None
    | _, _, _ => None
    end
  | _ => None
  end.

End IsoDate.

(** ** src/LawTracker.jsx *)

Module LawTracker.

(** An entry of [items.json], with the properties the component reads.
    Entries of [summary_3], [target] and [tags] are strings ([filter(Boolean)]
    treats a [null] entry like an empty one). *)
Module It.
Record t := {
  id : jsstring;
  title : option jsstring;
  topic : option jsstring;
  law_family : option jsstring;
  summary_3 : option (list jsstring);
  target : option (list jsstring);
  tags : option (list jsstring);
  process : option jsstring;
  action : option jsstring;
  updated_at : option jsstring
}.
End It.
Definition Item : Type := It.t.

(** The objects [{ it, score }] built for sorting. *)
Module Scored.
Record t := { it : Item; score : option Z }.
End Scored.
Definition Scored : Type := Scored.t.

Definition all : jsstring := js "all".

(** The values of the two [<select>] controls, in the order of their
    [<option>] elements. *)
Definition processOptions : list jsstring :=
  [all; js "policy"; js "public_comment"; js "diet"; js "promulgated";
   js "enforcement_planned"; js "enforced"].

Definition actionOptions : list jsstring :=
  [all; js "WATCH"; js "PREPARE"; js "ACT_NOW"; js "CLOSE"].

(** The search text of an entry:
    [[it.title, it.topic, it.law_family, ...(it.summary_3 || []),
      ...(it.target || []), ...(it.tags || [])].filter(Boolean).join(" ")]. *)
Definition blob (it : Item) : jsstring :=
  join (js " ")
    (filter_Boolean
       ([It.title it; It.topic it; It.law_family it]
        ++ List.map Some (or_nil (It.summary_3 it))
        ++ List.map Some (or_nil (It.target it))
        ++ List.map Some (or_nil (It.tags it)))).

(** The callback of [items.filter]; [None] is a [null] (falsy) entry. *)
Definition keep (qq process action : jsstring) (it : option Item) : bool :=
  match it with
  | None => false
  | Some it =>
    if negb (str_eqb process all) && negb (strict_eqb (It.process it) process)
    then false
    else if negb (str_eqb action all) && negb (strict_eqb (It.action it) action)
    then false
    else if is_empty qq then true
    else includes (blob it) qq
  end.

Definition actScore (it : Item) : Z :=
  let act := or_else (It.action it) (js "WATCH") in
  if str_eqb act (js "ACT_NOW") then 4
  else if str_eqb act (js "PREPARE") then 3
  else if str_eqb act (js "WATCH") then 2
  else 1.

(** The comparator [(a, b) => b.score - a.score]. *)
Definition byScoreDesc (a b : Scored) : option Z :=
  num_sub (Scored.score b) (Scored.score a).

Section WithDate.

(** [Date_getTime s] is [new Date(s).getTime()]; [None] is [NaN]. *)
Variable Date_getTime : jsstring -> option Z.

Definition daysBetween (a b : jsstring) : option Z :=
  match num_sub (Date_getTime a) (Date_getTime b) with
  | Some d =>
    let ms := Z.abs d in
    Some (ms / (1000 * 60 * 60 * 24))
  | None => None
  end.

Definition recency (now : jsstring) (it : Item) : option Z :=
  let updated := or_else (It.updated_at it) now in
  match daysBetween updated now with
  | Some days => Some (100 - Z.min 100 days)
  | None => None
  end.

(** The callback of the first [map]. *)
Definition scoreOf (now : jsstring) (it : Item) : Scored :=
  {| Scored.it := it;
     Scored.score :=
       match recency now it with
       | Some r => Some (actScore it * 1000 + r)
       | None => None
       end |}.

(** The entries [items.filter(...)] keeps; they are objects, [omap id] only
    retypes them. *)
Definition kept (items : list (option Item)) (qq process action : jsstring)
  : list Item :=
  omap id (List.filter (keep qq process action) items).

(** The value of the [filtered] memo for the state [(items, q, process,
    action)]; [now] is [new Date().toISOString().slice(0, 10)]. *)
Definition filtered (items : list (option Item)) (q process action : jsstring)
  (now : jsstring) : list Item :=
  let qq := trim q in
  let scored :=
    List.map Scored.it
      (sort byScoreDesc
         (List.map (scoreOf now) (kept items qq process action))) in
  scored.

End WithDate.

(** *** The same computation over a store of arrays

    [filter] and [map] allocate a new array, [sort] reorders its receiver in
    place and returns it.  A store is a list of arrays, a reference is an
    index in it; a computation may stop on a [TypeError] ([None]). *)

Inductive array :=
| ItemArray (xs : list (option Item))
| ScoredArray (xs : list Scored).

Definition store := list array.
Definition ref := nat.

Definition M (A : Type) : Type := store -> option (A * store).

#[export] Instance M_ret : MRet M := fun A x h => Some (x, h).

#[export] Instance M_bind : MBind M := fun A B f c h =>
  match c h with
  | Some (x, h') => f x h'
  | None => None
  end.

Definition throw {A} : M A := fun _ => None.

Definition alloc (a : array) : M ref := fun h => Some (length h, h ++ [a]).

Definition load (r : ref) : M array := fun h =>
  match h !! r with
  | Some a => Some (a, h)
  | None => None
  end.

Definition assign (r : ref) (a : array) : M unit := fun h =>
  Some (tt, <[r := a]> h).

Definition Array_filter (f : option Item -> bool) (r : ref) : M ref :=
  a ← load r;
  match a with
  | ItemArray xs => alloc (ItemArray (List.filter f xs))
  | ScoredArray _ => throw
  end.

(** [map] with a callback that reads properties of its argument: a [null]
    entry would raise. *)
Definition Array_map_items (f : Item -> Scored) (r : ref) : M ref :=
  a ← load r;
  match a with
  | ItemArray xs =>
    match mapM id xs with
    | Some its => alloc (ScoredArray (List.map f its))
    | None => throw
    end
  | ScoredArray _ => throw
  end.

Definition Array_sort (comparefn : Scored -> Scored -> option Z) (r : ref)
  : M ref :=
  a ← load r;
  match a with
  | ScoredArray xs => _ ← assign r (ScoredArray (sort comparefn xs)); mret r
  | ItemArray _ => throw
  end.

Definition Array_map_scored (f : Scored -> Item) (r : ref) : M ref :=
  a ← load r;
  match a with
  | ScoredArray xs => alloc (ItemArray (List.map (fun x => Some (f x)) xs))
  | ItemArray _ => throw
  end.

(** The body of the memo, run on the array [items] refers to. *)
Definition filtered_run (Date_getTime : jsstring -> option Z)
  (items : ref) (q process action now : jsstring) : M ref :=
  let qq := trim q in
  a1 ← Array_filter (keep qq process action) items;
  a2 ← Array_map_items (scoreOf Date_getTime now) a1;
  a3 ← Array_sort byScoreDesc a2;
  Array_map_scored Scored.it a3.

End LawTracker.

(** ** safety-law-tracker-fixed.jsx *)

Module SafetyLawTracker.

(** An entry of [revisionStages]; the icon and the style classes are
    presentation only and left out. *)
Module Stage.
Record t := {
  id : jsstring;
  name : jsstring;
  description : jsstring;
  detail : jsstring
}.
End Stage.
Definition Stage : Type := Stage.t.

Definition revisionStages : list Stage := [
  {| Stage.id := js "consideration";
     Stage.name := js "検討段階";
     Stage.description := js "厚生労働省内や審議会で改正の必要性を検討している段階";
     Stage.detail := js "労働政策審議会などで専門家による議論が行われます" |};
  {| Stage.id := js "public_comment";
     Stage.name := js "パブリックコメント";
     Stage.description := js "改正案について広く国民から意見を募集する期間";
     Stage.detail := js "e-Govを通じて誰でも意見を提出できます" |};
  {| Stage.id := js "deliberation";
     Stage.name := js "国会審議中";
     Stage.description := js "法案が国会に提出され、審議されている段階";
     Stage.detail := js "委員会審議、本会議での採決を経て成立します" |};
  {| Stage.id := js "promulgated";
     Stage.name := js "公布済み";
     Stage.description := js "法律が成立し、官報に掲載された段階";
     Stage.detail := js "公布日から一定期間後に施行されます" |};
  {| Stage.id := js "enforcement_scheduled";
     Stage.name := js "施行予定";
     Stage.description := js "施行日が決まっている段階";
     Stage.detail := js "企業は対応準備が必要です" |};
  {| Stage.id := js "enforced";
     Stage.name := js "施行済み";
     Stage.description := js "法律が効力を発生している段階";
     Stage.detail := js "企業は法令を遵守する義務があります" |}
].

Module Revision.
Record t := {
  id : Z;
  lawName : jsstring;
  title : jsstring;
  stage : jsstring;
  promulgationDate : option jsstring;
  enforcementDate : option jsstring;
  description : jsstring;
  officialUrl : jsstring;
  highlights : option (list jsstring)
}.
End Revision.
Definition Revision : Type := Revision.t.

Definition sampleRevisions : list Revision := [
  {| Revision.id := 0;
     Revision.lawName := js "労働安全衛生規則";
     Revision.title := js "AI・ロボット技術の進展に伴う安全規制の在り方検討";
     Revision.stage := js "consideration";
     Revision.promulgationDate := None;
     Revision.enforcementDate := None;
     Revision.description :=
       js "労働政策審議会安全衛生分科会で、AI・協働ロボット等の新技術に対応した安全基準の検討を開始";
     Revision.officialUrl :=
       js "https://www.mhlw.go.jp/stf/shingi/shingi-rousei_126969.html";
     Revision.highlights := None |};
  {| Revision.id := 1;
     Revision.lawName := js "労働安全衛生法及び作業環境測定法";
     Revision.title :=
       js "労働安全衛生法及び作業環境測定法の一部を改正する法律（令和7年法律第33号）";
     Revision.stage := js "promulgated";
     Revision.promulgationDate := Some (js "2025-05-14");
     Revision.enforcementDate := Some (js "2026-04-01");
     Revision.description :=
       js "個人事業者等に対する安全衛生対策の推進、50人未満事業場でのストレスチェック義務化など";
     Revision.officialUrl :=
       js "https://www.mhlw.go.jp/stf/seisakunitsuite/bunya/koyou_roudou/roudoukijun/anzen/an-eihou/index_00001.html";
     Revision.highlights := Some [
       js "フリーランスへの安全衛生対策";
       js "50人未満事業場でのストレスチェック義務化";
       js "化学物質管理の強化" ] |};
  {| Revision.id := 2;
     Revision.lawName := js "労働安全衛生規則";
     Revision.title := js "労働安全衛生規則の一部改正（熱中症対策の強化）";
     Revision.stage := js "enforced";
     Revision.promulgationDate := Some (js "2025-05-20");
     Revision.enforcementDate := Some (js "2025-06-01");
     Revision.description :=
       js "職場における熱中症対策の強化について、WBGT値に基づく予防措置の義務化";
     Revision.officialUrl :=
       js "https://www.mhlw.go.jp/stf/seisakunitsuite/bunya/koyou_roudou/roudoukijun/anzen/index.html";
     Revision.highlights := None |};
  {| Revision.id := 3;
     Revision.lawName := js "特定化学物質障害予防規則等";
     Revision.title := js "化学物質による労働災害防止のための新たな規制";
     Revision.stage := js "enforcement_scheduled";
     Revision.promulgationDate := Some (js "2024-02-24");
     Revision.enforcementDate := Some (js "2026-04-01");
     Revision.description :=
       js "ラベル表示・SDS交付義務対象物質の追加（約700物質追加、合計約1,600物質）";
     Revision.officialUrl :=
       js "https://www.mhlw.go.jp/stf/seisakunitsuite/bunya/0000099121_00005.html";
     Revision.highlights := Some [
       js "2026年4月：さらに約850物質追加予定";
       js "SDS交付義務違反への罰則新設";
       js "化学物質管理者の選任義務" ] |}
].

Definition all : jsstring := js "all".

(** [filteredRevisions] for the state [(searchTerm, selectedStage)], over the
    array the component filters. *)
Definition filteredRevisions (revisions : list Revision)
  (searchTerm selectedStage : jsstring) : list Revision :=
  List.filter (fun revision =>
    let matchesSearch :=
      includes (Revision.title revision) searchTerm
      || includes (Revision.description revision) searchTerm in
    let matchesStage :=
      str_eqb selectedStage all
      || str_eqb (Revision.stage revision) selectedStage in
    matchesSearch && matchesStage) revisions.

Definition getStageInfo (stageId : jsstring) : option Stage :=
  List.find (fun s => str_eqb (Stage.id s) stageId) revisionStages.

(** The number shown in the badge of a stage button:
    [revisions.filter(r => r.stage === stage.id).length]. *)
Definition stageCount (revisions : list Revision) (stage : Stage) : nat :=
  length (List.filter
            (fun r => str_eqb (Revision.stage r) (Stage.id stage)) revisions).

(** What a render shows for the state [(searchTerm, selectedStage)]: one badge
    per stage, in the order of [revisionStages], and the list of cards. *)
Module View.
Record t := {
  badges : list (jsstring * nat);
  cards : list Revision
}.
End View.

Definition render (revisions : list Revision)
  (searchTerm selectedStage : jsstring) : View.t :=
  {| View.badges :=
       List.map (fun stage => (Stage.id stage, stageCount revisions stage))
         revisionStages;
     View.cards := filteredRevisions revisions searchTerm selectedStage |}.

End SafetyLawTracker.

(** ** Vocabulary of the properties *)

(** [x] occurs somewhere before [y] in [l]. *)
Definition appears_before {A} (x y : A) (l : list A) : Prop :=
  exists l1 l2 l3, l = l1 ++ x :: l2 ++ y :: l3.

(** [l] is in descending order of [key]. *)
Definition descending {A} (key : A -> Z) : list A -> Prop :=
  StronglySorted (fun a b => key a >= key b).

(** On [l], the comparator is the difference of the keys, larger key first:
    it is a consistent comparator there. *)
Definition by_key {A} (comparefn : A -> A -> option Z) (key : A -> Z)
  (l : list A) : Prop :=
  forall x y, x ∈ l -> y ∈ l -> comparefn x y = Some (key y - key x).

(** [t] occurs in [s] as a contiguous run of code units, compared unit by
    unit (no case folding). *)
Definition substring_of (t s : jsstring) : Prop :=
  exists pre post, s = pre ++ t ++ post.

Module Query.

Import LawTracker.

(** One filter axis: the value ["all"] imposes nothing, any other value must
    be the value of the property. *)
Definition axis_ok (flt : jsstring) (v : option jsstring) : bool :=
  str_eqb flt all || strict_eqb v flt.

(** The search axis: an empty text (after trimming) imposes nothing. *)
Definition search_ok (searchText : jsstring) (it : Item) : bool :=
  is_empty (trim searchText) || includes (blob it) (trim searchText).

(** The logical AND of the three criteria. *)
Definition satisfies (q process action : jsstring) (it : Item) : bool :=
  axis_ok process (It.process it) && axis_ok action (It.action it)
  && search_ok q it.

(** The records of a snapshot: its non-null entries. *)
Definition records (items : list (option Item)) : list Item := omap id items.

(** Every record of the snapshot carries a date [new Date] accepts (or none),
    and so does [now]: no score is [NaN]. *)
Definition dates_ok (Date_getTime : jsstring -> option Z) (now : jsstring)
  (items : list (option Item)) : Prop :=
  Forall (fun it => is_Some (recency Date_getTime now it)) (records items).

(** The urgency tier and the capped day distance, the two inputs of the
    ranking. *)
Definition tier (it : Item) : Z := actScore it.

Definition cappedDays (Date_getTime : jsstring -> option Z) (now : jsstring)
  (it : Item) : option Z :=
  match daysBetween Date_getTime (or_else (It.updated_at it) now) now with
  | Some d => Some (Z.min 100 d)
  | None => None
  end.

Definition score (Date_getTime : jsstring -> option Z) (now : jsstring)
  (it : Item) : option Z :=
  Scored.score (scoreOf Date_getTime now it).

Definition same_score (Date_getTime : jsstring -> option Z) (now : jsstring)
  (s : Z) (it : Item) : bool :=
  match score Date_getTime now it with
  | Some s' => s' =? s
  | None => false
  end.

(** The comparator of the sort, read on the entries themselves, and the key
    it is the difference of when no score is [NaN]. *)
Definition byItemScoreDesc (Date_getTime : jsstring -> option Z)
  (now : jsstring) (a b : Item) : option Z :=
  byScoreDesc (scoreOf Date_getTime now a) (scoreOf Date_getTime now b).

Definition rankKey (Date_getTime : jsstring -> option Z) (now : jsstring)
  (it : Item) : Z :=
  default 0 (score Date_getTime now it).

(** The matching records, in snapshot order. *)
Definition matching (items : list (option Item)) (q process action : jsstring)
  : list Item :=
  List.filter (satisfies q process action) (records items).

End Query.

(** The statements of the specification, in its own words, for comparison
    with the code. *)
Module Spec.

Import LawTracker.

Definition stages : list jsstring :=
  [js "considering"; js "public_comment"; js "in_diet"; js "promulgated";
   js "enforcement_planned"; js "enforced"].

Definition actions : list jsstring :=
  [js "WATCH"; js "PREPARE"; js "ACT_NOW"; js "CLOSE"].

(** "a non-null stage belonging to the fixed ordered set ... and a non-null
    action belonging to {WATCH, PREPARE, ACT_NOW, CLOSE}". *)
Definition member (v : option jsstring) (set : list jsstring) : bool :=
  match v with
  | Some s => existsb (str_eqb s) set
  | None => false
  end.

Definition classified (stage action : option jsstring) : bool :=
  member stage stages && member action actions.

(** "searchText occurs as a substring of its title, its lawName, one of its
    summary entries, one of its target-list entries, or one of its tags". *)
Definition search_fields (it : Item) : list jsstring :=
  filter_Boolean [It.title it; It.law_family it]
  ++ or_nil (It.summary_3 it) ++ or_nil (It.target it) ++ or_nil (It.tags it).

Definition search_matches (searchText : jsstring) (it : Item) : bool :=
  existsb (fun field => includes field searchText) (search_fields it).

(** "the record with the more urgent action tier appears first, and among
    records of equal urgency tier the record with the more recent updatedAt
    (fewer days since updatedAt) appears first". *)
Definition ranks_before (Date_getTime : jsstring -> option Z) (now : jsstring)
  (x y : Item) : Prop :=
  Query.tier x > Query.tier y
  \/ (Query.tier x = Query.tier y
      /\ exists dx dy,
           daysBetween Date_getTime (or_else (It.updated_at x) now) now = Some dx
           /\ daysBetween Date_getTime (or_else (It.updated_at y) now) now = Some dy
           /\ dx < dy).

(** "getStats reports, for each stage and for each action, a count equal to
    the number of records ... whose stage (respectively action) equals that
    value".  The records of the component that counts have no action. *)
Definition reports (stats : list (jsstring * nat)) (key : jsstring) (n : nat)
  : Prop :=
  (key, n) ∈ stats.

(** "the number of records in the current snapshot whose stage equals that
    value". *)
Definition count_stage (revisions : list SafetyLawTracker.Revision)
  (stageId : jsstring) : nat :=
  length (filter (fun r => SafetyLawTracker.Revision.stage r = stageId)
            revisions).

Definition stats_complete (stageIds : list jsstring)
  (stats : list (jsstring * nat)) : Prop :=
  (forall s, s ∈ stageIds -> exists n, reports stats s n)
  /\ (forall a, a ∈ actions -> exists n, reports stats a n).

End Spec.

(** ** Fixtures for the examples *)

Module Fixture.

Import LawTracker.

Definition item (id : string) (title : string) (tags : list jsstring)
  (process action updated_at : option jsstring) : Item :=
  {| It.id := js id; It.title := Some (js title); It.topic := None;
     It.law_family := None; It.summary_3 := None; It.target := None;
     It.tags := Some tags; It.process := process; It.action := action;
     It.updated_at := updated_at |}.

Definition now : jsstring := js "2025-06-01".

(** Updated 517 and 365 days before [now]: both beyond the 100-day cap. *)
Definition older : Item :=
  item "older" "石綿障害予防規則の改正" [] (Some (js "enforced"))
    (Some (js "WATCH")) (Some (js "2024-01-01")).
Definition newer : Item :=
  item "newer" "クレーン等安全規則の改正" [] (Some (js "enforced"))
    (Some (js "WATCH")) (Some (js "2024-06-01")).

(** Updated 10 days before [now] and 10 days after it. *)
Definition recent : Item :=
  item "recent" "熱中症対策の強化" [] (Some (js "promulgated"))
    (Some (js "WATCH")) (Some (js "2025-05-22")).
Definition ahead : Item :=
  item "ahead" "個人事業者等の安全衛生対策" [] (Some (js "promulgated"))
    (Some (js "WATCH")) (Some (js "2025-06-11")).

Definition urgent : Item :=
  item "urgent" "化学物質管理者の選任義務" [js "化学物質"]
    (Some (js "promulgated")) (Some (js "ACT_NOW")) (Some (js "2025-01-15")).

(** No action, no update date. *)
Definition bare : Item :=
  item "bare" "化学物質による労働災害防止" [] (Some (js "promulgated")) None None.

(** Neither stage nor action. *)
Definition unclassified : Item :=
  item "unclassified" "安全" [js "衛生"] None None None.

Definition snapshot : list (option Item) :=
  [Some older; None; Some recent; Some bare; Some newer; Some urgent;
   Some ahead].

(** The entry of [revisionStages] for the stage ["promulgated"]. *)
Definition promulgated_stage : SafetyLawTracker.Stage :=
  default
    {| SafetyLawTracker.Stage.id := []; SafetyLawTracker.Stage.name := [];
       SafetyLawTracker.Stage.description := [];
       SafetyLawTracker.Stage.detail := [] |}
    (SafetyLawTracker.getStageInfo (js "promulgated")).

End Fixture.

(** ** The rest of the two components *)

(** What a card of [LawTracker] shows of an entry, and the empty-list
    notice. *)
Module LawTrackerView.

Import LawTracker.

(** The bullets of a card:
    [(it.summary_3 || []).filter(Boolean).slice(0, 3)]. *)
Definition summaryBullets (it : Item) : list jsstring :=
  take 3 (filter_Boolean (List.map Some (or_nil (It.summary_3 it)))).

(** The condition of a tag badge: [(it.tags || []).includes(tag)], an
    element of the array equal to [tag]. *)
Definition hasTag (it : Item) (tag : jsstring) : bool :=
  existsb (fun t => str_eqb t tag) (or_nil (It.tags it)).

(** The condition of the notice: [filtered.length === 0]. *)
Definition showsEmptyNotice (filtered : list Item) : bool :=
  Nat.eqb (length filtered) 0.

End LawTrackerView.

(** The state of [SafetyLawTracker] and its event handlers. *)
Module SafetyLawTrackerState.

Import SafetyLawTracker.

(** The four [useState] cells. *)
Record State := {
  searchTerm : jsstring;
  selectedStage : jsstring;
  showProcessDetails : bool;
  expandedRevision : option Z
}.

Definition initial : State :=
  {| searchTerm := js ""; selectedStage := js "all";
     showProcessDetails := false; expandedRevision := None |}.

(** [expandedRevision === revision.id] *)
Definition isExpanded (s : State) (revision : Revision) : bool :=
  match expandedRevision s with
  | Some id => id =? Revision.id revision
  | None => false
  end.

(** [onChange] of the search box: [setSearchTerm(e.target.value)]. *)
Definition onSearchChange (value : jsstring) (s : State) : State :=
  {| searchTerm := value; selectedStage := selectedStage s;
     showProcessDetails := showProcessDetails s;
     expandedRevision := expandedRevision s |}.

(** [onChange] of the select: [setSelectedStage(e.target.value)]. *)
Definition onStageChange (value : jsstring) (s : State) : State :=
  {| searchTerm := searchTerm s; selectedStage := value;
     showProcessDetails := showProcessDetails s;
     expandedRevision := expandedRevision s |}.

(** [onClick] of the help button:
    [setShowProcessDetails(!showProcessDetails)]. *)
Definition onDetailsClick (s : State) : State :=
  {| searchTerm := searchTerm s; selectedStage := selectedStage s;
     showProcessDetails := negb (showProcessDetails s);
     expandedRevision := expandedRevision s |}.

(** [onClick] of a stage button:
    [setSelectedStage(selectedStage === stage.id ? "all" : stage.id)]. *)
Definition onStageClick (stage : Stage) (s : State) : State :=
  {| searchTerm := searchTerm s;
     selectedStage :=
       if str_eqb (selectedStage s) (Stage.id stage)
       then js "all" else Stage.id stage;
     showProcessDetails := showProcessDetails s;
     expandedRevision := expandedRevision s |}.

(** [onClick] of a card:
    [setExpandedRevision(isExpanded ? null : revision.id)]. *)
Definition onRevisionClick (revision : Revision) (s : State) : State :=
  {| searchTerm := searchTerm s; selectedStage := selectedStage s;
     showProcessDetails := showProcessDetails s;
     expandedRevision :=
       if isExpanded s revision then None else Some (Revision.id revision) |}.

(** The cards on the page in state [s]. *)
Definition cards (s : State) : list Revision :=
  filteredRevisions sampleRevisions (searchTerm s) (selectedStage s).

(** The values of the stage select: ["all"] and one option per stage. *)
Definition stageOptions : list jsstring :=
  js "all" :: List.map Stage.id revisionStages.

Inductive Event :=
| SearchChange (value : jsstring)
| StageChange (value : jsstring)
| DetailsClick
| StageClick (stage : Stage)
| RevisionClick (revision : Revision).

Definition handle (e : Event) (s : State) : State :=
  match e with
  | SearchChange value => onSearchChange value s
  | StageChange value => onStageChange value s
  | DetailsClick => onDetailsClick s
  | StageClick stage => onStageClick stage s
  | RevisionClick revision => onRevisionClick revision s
  end.

(** The events the page rendered for [s] can raise: the select offers its
    options, there is one button per stage and one card per filtered
    revision. *)
Definition offered (s : State) (e : Event) : Prop :=
  match e with
  | SearchChange _ => True
  | StageChange value => value ∈ stageOptions
  | DetailsClick => True
  | StageClick stage => stage ∈ revisionStages
  | RevisionClick revision => revision ∈ cards s
  end.

Inductive reachable : State -> Prop :=
| reachable_initial : reachable initial
| reachable_handle (s : State) (e : Event) :
    reachable s -> offered s e -> reachable (handle e s).

End SafetyLawTrackerState.

(** Further fixtures. *)
Module MoreFixture.

Import LawTracker.

(** An entry with five summary entries, one of them empty. *)
Definition summarised : Item :=
  {| It.id := js "summarised"; It.title := Some (js "化学物質規制の見直し");
     It.topic := Some (js "化学物質"); It.law_family := Some (js "労働安全衛生法");
     It.summary_3 :=
       Some [js "ラベル表示義務の拡大"; js ""; js "SDS交付義務の拡大";
             js "罰則の新設"; js "化学物質管理者の選任"];
     It.target := Some [js "製造業"; js "建設業"];
     It.tags := Some [js "needs_review"];
     It.process := Some (js "promulgated"); It.action := Some (js "PREPARE");
     It.updated_at := Some (js "2025-05-30") |}.

(** An entry without any text. *)
Definition textless : Item :=
  {| It.id := js "textless"; It.title := None; It.topic := Some (js "");
     It.law_family := None; It.summary_3 := Some [js ""]; It.target := None;
     It.tags := Some []; It.process := Some (js "enforced");
     It.action := Some (js "WATCH"); It.updated_at := None |}.

End MoreFixture.

(** * Properties *)

(** ** Strings *)

Lemma str_eqb_eq (s t : jsstring) : str_eqb s t = true <-> s = t.
Proof.
  revert t; induction s as [|c s IH]; intros [|d t]; cbn [str_eqb]; split;
    try congruence; try reflexivity.
  - intros H. apply andb_true_iff in H as [Hc Hs].
    apply N.eqb_eq in Hc. apply IH in Hs. congruence.
  - intros H. injection H as -> ->.
    apply andb_true_iff. split; [apply N.eqb_refl | now apply IH].
Qed.

Lemma str_eqb_refl (s : jsstring) : str_eqb s s = true.
Proof. now apply str_eqb_eq. Qed.

Lemma strict_eqb_eq (v : option jsstring) (s : jsstring) :
  strict_eqb v s = true <-> v = Some s.
Proof.
  destruct v as [t|]; simpl; [|split; congruence].
  rewrite str_eqb_eq. split; congruence.
Qed.

Lemma startsWith_spec (s p : jsstring) :
  startsWith s p = true <-> exists post, s = p ++ post.
Proof.
  revert s; induction p as [|c p IH]; intros s; cbn [startsWith].
  - destruct s; split; eauto.
  - destruct s as [|d s]; cbn [startsWith].
    + split; [discriminate | intros [post H]; discriminate].
    + rewrite andb_true_iff, N.eqb_eq, IH. split.
      * intros [-> [post ->]]. now exists post.
      * intros [post H]. injection H as -> ->. eauto.
Qed.

(** [includes] decides occurrence as a contiguous run of code units. *)
Lemma includes_spec (s t : jsstring) :
  includes s t = true <-> substring_of t s.
Proof.
  unfold substring_of.
  induction s as [|d s IH]; cbn [includes];
    rewrite orb_true_iff, startsWith_spec.
  - split.
    + intros [[post H]|H]; [|discriminate]. exists [], post. exact H.
    + intros (pre & post & H). left.
      destruct pre; [now exists post | discriminate].
  - rewrite IH. split.
    + intros [[post H]|(pre & post & H)].
      * exists [], post. exact H.
      * exists (d :: pre), post. simpl. now rewrite H.
    + intros (pre & post & H). destruct pre as [|e pre].
      * left. now exists post.
      * right. injection H as _ H. now exists pre, post.
Qed.

Lemma substring_of_join (sep t p : jsstring) (parts : list jsstring) :
  p ∈ parts -> substring_of t p -> substring_of t (join sep parts).
Proof.
  intros Hin (pre & post & ->).
  induction parts as [|p0 parts IH]; [inversion Hin|].
  apply elem_of_cons in Hin as [<-|Hin].
  - destruct parts as [|p1 parts].
    + now exists pre, post.
    + exists pre, (post ++ sep ++ join sep (p1 :: parts)).
      change (join sep (_ :: p1 :: parts))
        with ((pre ++ t ++ post) ++ sep ++ join sep (p1 :: parts)).
      now rewrite <- !app_assoc.
  - destruct (IH Hin) as (pre' & post' & E).
    destruct parts as [|p1 parts]; [inversion Hin|].
    exists (p0 ++ sep ++ pre'), post'.
    change (join sep (p0 :: p1 :: parts))
      with (p0 ++ sep ++ join sep (p1 :: parts)).
    rewrite E. now rewrite <- !app_assoc.
Qed.

Lemma elem_of_filter_Boolean (s : jsstring) (vs : list (option jsstring)) :
  s ∈ filter_Boolean vs <-> s <> [] /\ Some s ∈ vs.
Proof.
  induction vs as [|v vs IH]; simpl.
  - split; [intros H; inversion H | intros [_ H]; inversion H].
  - destruct v as [[|c v]|]; rewrite ?elem_of_cons, IH;
      intuition (try congruence; try discriminate).
Qed.


(** ** Sorting *)

Section Sorting.

Context {A : Type}.
Variable comparefn : A -> A -> option Z.

Lemma insert_sorted_perm (x : A) (l : list A) :
  insert_sorted comparefn x l ≡ₚ x :: l.
Proof.
  induction l as [|y l IH]; cbn [insert_sorted]; [reflexivity|].
  destruct (0 <? SortCompare comparefn x y); [|reflexivity].
  rewrite IH. apply Permutation_swap.
Qed.

Lemma sort_perm (l : list A) : sort comparefn l ≡ₚ l.
Proof.
  induction l as [|x l IH]; [reflexivity|].
  unfold sort in *. cbn [foldr]. rewrite insert_sorted_perm. now rewrite IH.
Qed.

Lemma elem_of_sort (x : A) (l : list A) : x ∈ sort comparefn l <-> x ∈ l.
Proof. now rewrite sort_perm. Qed.

(** Sorting commutes with a relabelling of the elements. *)
Lemma insert_sorted_map {B} (f : B -> A) (x : B) (l : list B) :
  insert_sorted comparefn (f x) (List.map f l)
  = List.map f (insert_sorted (fun a b => comparefn (f a) (f b)) x l).
Proof.
  induction l as [|y l IH]; cbn [insert_sorted List.map]; [reflexivity|].
  unfold SortCompare.
  destruct (0 <? default 0 (comparefn (f x) (f y))); cbn [List.map];
    [now rewrite IH | reflexivity].
Qed.

Lemma sort_map {B} (f : B -> A) (l : list B) :
  sort comparefn (List.map f l)
  = List.map f (sort (fun a b => comparefn (f a) (f b)) l).
Proof.
  induction l as [|x l IH]; [reflexivity|].
  unfold sort in *. cbn [foldr List.map]. rewrite IH.
  apply insert_sorted_map.
Qed.

(** An inserted element only moves behind elements it must follow, so a class
    of elements that never have to follow one another keeps its order. *)
Lemma filter_insert_sorted (P : A -> bool) (x : A) (l : list A) :
  (forall y, P x = true -> P y = true -> SortCompare comparefn x y <= 0) ->
  List.filter P (insert_sorted comparefn x l) = List.filter P (x :: l).
Proof.
  intros Hclass.
  induction l as [|y l IH]; cbn [insert_sorted]; [reflexivity|].
  destruct (0 <? SortCompare comparefn x y) eqn:E; [|reflexivity].
  apply Z.ltb_lt in E.
  cbn [List.filter] in *. rewrite IH.
  destruct (P x) eqn:Px, (P y) eqn:Py; try reflexivity.
  specialize (Hclass y eq_refl Py). lia.
Qed.

Lemma filter_sort (P : A -> bool) (l : list A) :
  (forall x y, P x = true -> P y = true -> SortCompare comparefn x y <= 0) ->
  List.filter P (sort comparefn l) = List.filter P l.
Proof.
  intros Hclass.
  induction l as [|x l IH]; [reflexivity|].
  unfold sort in *. cbn [foldr].
  rewrite filter_insert_sorted by (intros y; apply Hclass).
  cbn [List.filter]. now rewrite IH.
Qed.

(** When the comparator is the difference of a key, the result is in
    descending key order. *)
Variable key : A -> Z.

Lemma by_key_incl (l l' : list A) :
  (forall x, x ∈ l' -> x ∈ l) ->
  by_key comparefn key l -> by_key comparefn key l'.
Proof. intros Hincl Hk x y Hx Hy. apply Hk; now apply Hincl. Qed.

Lemma insert_sorted_descending (x : A) (l : list A) :
  by_key comparefn key (x :: l) -> descending key l ->
  descending key (insert_sorted comparefn x l).
Proof.
  intros Hk Hs.
  induction l as [|y l IH]; cbn [insert_sorted].
  - repeat constructor.
  - assert (Hxy : SortCompare comparefn x y = key y - key x).
    { unfold SortCompare. rewrite Hk; [reflexivity | left | right; left]. }
    apply StronglySorted_inv in Hs as [Hs Hy].
    destruct (0 <? SortCompare comparefn x y) eqn:E.
    + apply Z.ltb_lt in E. constructor.
      * apply IH; [|exact Hs]. revert Hk. apply by_key_incl.
        intros a Ha. apply elem_of_cons in Ha as [->|Ha];
          [left | right; now right].
      * apply List.Forall_forall. intros z Hz.
        apply list_elem_of_In in Hz. rewrite insert_sorted_perm in Hz.
        apply elem_of_cons in Hz as [->|Hz]; [lia|].
        rewrite List.Forall_forall in Hy. apply Hy. now apply list_elem_of_In.
    + apply Z.ltb_ge in E. constructor; [now constructor|].
      constructor; [lia|].
      rewrite List.Forall_forall in Hy |- *. intros z Hz.
      specialize (Hy z Hz). lia.
Qed.

Lemma sort_descending (l : list A) :
  by_key comparefn key l -> descending key (sort comparefn l).
Proof.
  intros Hk. induction l as [|x l IH]; [constructor|].
  unfold sort in *. cbn [foldr].
  apply insert_sorted_descending.
  - revert Hk. apply by_key_incl. intros a Ha.
    apply elem_of_cons in Ha as [->|Ha]; [left|right].
    now apply (elem_of_sort a l).
  - apply IH. revert Hk. apply by_key_incl. intros a Ha. now right.
Qed.

(** In a descending list, an element with a larger key is never behind one
    with a smaller key. *)
Lemma descending_not_behind (l : list A) (x y : A) :
  descending key l -> key x > key y -> ~ appears_before y x l.
Proof.
  intros Hs Hlt (l1 & l2 & l3 & ->).
  induction l1 as [|z l1 IH]; cbn [app] in Hs;
    apply StronglySorted_inv in Hs as [Hs Hall]; [|now apply IH].
  rewrite List.Forall_forall in Hall.
  assert (key y >= key x); [|lia].
  apply Hall. apply in_or_app. right. now left.
Qed.

Lemma descending_in_front (l : list A) (x y : A) :
  descending key l -> x ∈ l -> y ∈ l -> key x > key y ->
  appears_before x y l.
Proof.
  intros Hs Hx Hy Hlt.
  apply list_elem_of_split in Hx as (l1 & l2 & ->).
  apply elem_of_app in Hy as [Hy|Hy].
  - exfalso. apply list_elem_of_split in Hy as (l3 & l4 & ->).
    apply (descending_not_behind _ x y Hs Hlt).
    exists l3, l4, l2. now rewrite <- app_assoc.
  - apply elem_of_cons in Hy as [->|Hy]; [lia|].
    apply list_elem_of_split in Hy as (l3 & l4 & ->).
    now exists l1, l3, l4.
Qed.

(** A descending arrangement that keeps every key class in its original
    order is unique: stability leaves no freedom to the sort. *)
Lemma descending_stable_unique (l1 l2 : list A) :
  l1 ≡ₚ l2 -> descending key l1 -> descending key l2 ->
  (forall k, List.filter (fun x => key x =? k) l1
             = List.filter (fun x => key x =? k) l2) ->
  l1 = l2.
Proof.
  revert l2. induction l1 as [|x l1 IH]; intros l2 Hp Hs1 Hs2 Hf.
  - now apply Permutation_nil in Hp.
  - destruct l2 as [|y l2].
    { symmetry in Hp. now apply Permutation_nil in Hp. }
    assert (Hxy : key x = key y).
    { apply StronglySorted_inv in Hs1 as [_ H1].
      apply StronglySorted_inv in Hs2 as [_ H2].
      rewrite List.Forall_forall in H1, H2.
      assert (Hx : x ∈ y :: l2) by (rewrite <- Hp; left).
      assert (Hy : y ∈ x :: l1) by (rewrite Hp; left).
      apply elem_of_cons in Hx as [->|Hx]; [reflexivity|].
      apply elem_of_cons in Hy as [->|Hy]; [reflexivity|].
      apply list_elem_of_In in Hx, Hy.
      specialize (H1 y Hy). specialize (H2 x Hx). lia. }
    assert (x = y) as <-.
    { specialize (Hf (key x)). cbn [List.filter] in Hf.
      rewrite <- Hxy, Z.eqb_refl in Hf. congruence. }
    f_equal. apply IH.
    + now apply Permutation_cons_inv in Hp.
    + now apply StronglySorted_inv in Hs1.
    + now apply StronglySorted_inv in Hs2.
    + intros k. specialize (Hf k). cbn [List.filter] in Hf.
      destruct (key x =? k); congruence.
Qed.

End Sorting.

(** ** The query of [LawTracker] *)

Section Filtered.

Import LawTracker Query.

Lemma keep_satisfies (q process action : jsstring) (it : Item) :
  keep (trim q) process action (Some it) = satisfies q process action it.
Proof.
  unfold keep, satisfies, axis_ok, search_ok.
  destruct (str_eqb process all), (strict_eqb (It.process it) process),
    (str_eqb action all), (strict_eqb (It.action it) action),
    (is_empty (trim q)); reflexivity.
Qed.

Lemma kept_matching (items : list (option Item))
  (q process action : jsstring) :
  kept items (trim q) process action = matching items q process action.
Proof.
  unfold kept, matching, records.
  induction items as [|[it|] items IH]; [reflexivity| |exact IH].
  cbn [List.filter]. rewrite keep_satisfies.
  change (omap id (Some it :: items)) with (it :: omap id items).
  cbn [List.filter]. destruct (satisfies q process action it); [|exact IH].
  change (omap id (Some it :: ?l)) with (it :: omap id l). now rewrite IH.
Qed.

Lemma elem_of_records (it : Item) (items : list (option Item)) :
  it ∈ records items <-> Some it ∈ items.
Proof.
  unfold records. rewrite list_elem_of_omap. split.
  - intros (v & Hv & E). unfold id in E. now subst.
  - intros H. now exists (Some it).
Qed.

Lemma elem_of_matching (it : Item) (items : list (option Item))
  (q process action : jsstring) :
  it ∈ matching items q process action
  <-> Some it ∈ items /\ satisfies q process action it = true.
Proof.
  unfold matching.
  rewrite list_elem_of_In, List.filter_In, <- list_elem_of_In.
  now rewrite elem_of_records.
Qed.

Lemma axis_ok_spec (flt : jsstring) (v : option jsstring) :
  axis_ok flt v = true <-> flt = all \/ v = Some flt.
Proof.
  unfold axis_ok. now rewrite orb_true_iff, str_eqb_eq, strict_eqb_eq.
Qed.

Lemma is_empty_spec (s : jsstring) : is_empty s = true <-> s = [].
Proof. destruct s; cbn; split; congruence. Qed.

Lemma search_ok_spec (q : jsstring) (it : Item) :
  search_ok q it = true <-> trim q = [] \/ substring_of (trim q) (blob it).
Proof.
  unfold search_ok. now rewrite orb_true_iff, is_empty_spec, includes_spec.
Qed.

Lemma satisfies_spec (q process action : jsstring) (it : Item) :
  satisfies q process action it = true
  <-> (process = all \/ It.process it = Some process)
      /\ (action = all \/ It.action it = Some action)
      /\ (trim q = [] \/ substring_of (trim q) (blob it)).
Proof.
  unfold satisfies.
  rewrite !andb_true_iff, !axis_ok_spec, search_ok_spec. tauto.
Qed.

Variable Date_getTime : jsstring -> option Z.

(** The memo is the sort of the matching records by their own scores. *)
Lemma filtered_sort (items : list (option Item))
  (q process action now : jsstring) :
  filtered Date_getTime items q process action now
  = sort (byItemScoreDesc Date_getTime now) (matching items q process action).
Proof.
  unfold filtered. rewrite kept_matching, sort_map, List.map_map.
  apply List.map_id.
Qed.

Lemma filtered_matching (items : list (option Item))
  (q process action now : jsstring) :
  filtered Date_getTime items q process action now
  ≡ₚ matching items q process action.
Proof. rewrite filtered_sort. apply sort_perm. Qed.

Lemma elem_of_filtered (it : Item) (items : list (option Item))
  (q process action now : jsstring) :
  it ∈ filtered Date_getTime items q process action now
  <-> Some it ∈ items /\ satisfies q process action it = true.
Proof. rewrite filtered_matching. apply elem_of_matching. Qed.

(** *** Scores *)

Lemma daysBetween_nonneg (a b : jsstring) (d : Z) :
  daysBetween Date_getTime a b = Some d -> 0 <= d.
Proof.
  unfold daysBetween. destruct (num_sub _ _) as [ms|]; [|discriminate].
  intros [= <-]. apply Z.div_pos; lia.
Qed.

Lemma daysBetween_eq (a b : jsstring) (ta tb : Z) :
  Date_getTime a = Some ta -> Date_getTime b = Some tb ->
  daysBetween Date_getTime a b = Some (Z.abs (ta - tb) / IsoDate.msPerDay).
Proof. unfold daysBetween. now intros -> ->. Qed.

Lemma recency_cappedDays (now : jsstring) (it : Item) :
  recency Date_getTime now it
  = (fun d => 100 - d) <$> cappedDays Date_getTime now it.
Proof.
  unfold recency, cappedDays. now destruct (daysBetween _ _ _).
Qed.

Lemma cappedDays_range (now : jsstring) (it : Item) (d : Z) :
  cappedDays Date_getTime now it = Some d -> 0 <= d <= 100.
Proof.
  unfold cappedDays.
  destruct (daysBetween _ _ _) as [d'|] eqn:E; [|discriminate].
  intros [= <-]. apply daysBetween_nonneg in E. lia.
Qed.

Lemma recency_range (now : jsstring) (it : Item) (r : Z) :
  recency Date_getTime now it = Some r -> 0 <= r <= 100.
Proof.
  rewrite recency_cappedDays.
  destruct (cappedDays _ _ _) as [d|] eqn:E; [|discriminate].
  intros [= <-]. apply cappedDays_range in E. lia.
Qed.

Lemma score_eq (now : jsstring) (it : Item) :
  score Date_getTime now it
  = (fun d => tier it * 1000 + (100 - d)) <$> cappedDays Date_getTime now it.
Proof.
  unfold score, scoreOf. cbn [Scored.score]. rewrite recency_cappedDays.
  now destruct (cappedDays _ _ _).
Qed.

Lemma score_rankKey (now : jsstring) (it : Item) :
  is_Some (recency Date_getTime now it) ->
  score Date_getTime now it = Some (rankKey Date_getTime now it).
Proof.
  intros [r Hr]. unfold rankKey, score, scoreOf. cbn [Scored.score].
  now rewrite Hr.
Qed.

Lemma dates_ok_by_key (items : list (option Item))
  (q process action now : jsstring) :
  dates_ok Date_getTime now items ->
  by_key (byItemScoreDesc Date_getTime now) (rankKey Date_getTime now)
    (matching items q process action).
Proof.
  intros Hok x y Hx Hy.
  unfold dates_ok in Hok. rewrite List.Forall_forall in Hok.
  apply elem_of_matching in Hx as [Hx _], Hy as [Hy _].
  apply elem_of_records, list_elem_of_In, Hok, score_rankKey in Hx, Hy.
  unfold byItemScoreDesc, byScoreDesc. fold (score Date_getTime now x).
  fold (score Date_getTime now y). now rewrite Hx, Hy.
Qed.

Lemma filtered_descending (items : list (option Item))
  (q process action now : jsstring) :
  dates_ok Date_getTime now items ->
  descending (rankKey Date_getTime now)
    (filtered Date_getTime items q process action now).
Proof.
  intros Hok. rewrite filtered_sort.
  apply sort_descending. now apply dates_ok_by_key.
Qed.

Lemma same_score_rankKey (now : jsstring) (s : Z) (it : Item) :
  is_Some (recency Date_getTime now it) ->
  same_score Date_getTime now s it = (rankKey Date_getTime now it =? s).
Proof.
  intros H. unfold same_score. now rewrite (score_rankKey _ _ H).
Qed.

(** The rank key orders by tier first, by capped day distance second. *)
Lemma rankKey_order (now : jsstring) (x y : Item) (dx dy : Z) :
  cappedDays Date_getTime now x = Some dx ->
  cappedDays Date_getTime now y = Some dy ->
  tier x > tier y \/ (tier x = tier y /\ dx < dy) ->
  rankKey Date_getTime now x > rankKey Date_getTime now y.
Proof.
  intros Hx Hy Hord. unfold rankKey. rewrite !score_eq, Hx, Hy. cbn.
  apply cappedDays_range in Hx, Hy. lia.
Qed.

End Filtered.

(** ** The query over the store *)

Section Store.

Import LawTracker Query.

Variable Date_getTime : jsstring -> option Z.

Lemma mapM_id_filter_keep (items : list (option Item))
  (qq process action : jsstring) :
  mapM id (List.filter (keep qq process action) items)
  = Some (kept items qq process action).
Proof.
  unfold kept.
  induction items as [|[it|] items IH]; [reflexivity| |exact IH].
  cbn [List.filter]. destruct (keep qq process action (Some it)); [|exact IH].
  cbn. rewrite IH. reflexivity.
Qed.

(** One evaluation of the memo appends three arrays to the store (the kept
    entries, the scored and then sorted objects, the result) and touches
    nothing else. *)
Lemma filtered_run_store (h : store) (r : ref) (items : list (option Item))
  (q process action now : jsstring) :
  h !! r = Some (ItemArray items) ->
  filtered_run Date_getTime r q process action now h
  = Some ((length h + 2)%nat,
          h ++ [ItemArray (List.filter (keep (trim q) process action) items);
                ScoredArray
                  (sort byScoreDesc
                     (List.map (scoreOf Date_getTime now)
                        (kept items (trim q) process action)));
                ItemArray
                  (List.map Some
                     (filtered Date_getTime items q process action now))]).
Proof.
  intros Hr.
  unfold filtered_run, Array_filter, Array_map_items, Array_sort,
    Array_map_scored, mbind, M_bind, mret, M_ret, load, alloc, assign.
  unfold store, ref in *. rewrite Hr.
  rewrite (list_lookup_middle h [] _ (length h)) by reflexivity.
  rewrite mapM_id_filter_keep.
  rewrite (list_lookup_middle (h ++ [_]) [] _ (length (h ++ [_])))
    by reflexivity.
  rewrite list_lookup_insert_eq by (rewrite !length_app; cbn; lia).
  f_equal. f_equal.
  - rewrite length_insert, !length_app. cbn. lia.
  - rewrite (insert_app_r_alt (h ++ [_])) by lia.
    rewrite Nat.sub_diag. cbn [insert list_insert].
    unfold filtered. rewrite <- !app_assoc. cbn [app].
    rewrite List.map_map. reflexivity.
Qed.

End Store.

(** ** The sample component *)

Section SampleComponent.

Import SafetyLawTracker.

Lemma elem_of_filteredRevisions (r : Revision) (revisions : list Revision)
  (searchTerm selectedStage : jsstring) :
  r ∈ filteredRevisions revisions searchTerm selectedStage
  <-> r ∈ revisions
      /\ (substring_of searchTerm (Revision.title r)
          \/ substring_of searchTerm (Revision.description r))
      /\ (selectedStage = all \/ Revision.stage r = selectedStage).
Proof.
  unfold filteredRevisions.
  rewrite list_elem_of_In, List.filter_In, <- list_elem_of_In.
  cbv zeta.
  now rewrite andb_true_iff, !orb_true_iff, !includes_spec, !str_eqb_eq.
Qed.

Lemma stageCount_count_stage (revisions : list Revision) (stage : Stage) :
  stageCount revisions stage = Spec.count_stage revisions (Stage.id stage).
Proof.
  unfold stageCount, Spec.count_stage.
  induction revisions as [|r revisions IH]; [reflexivity|].
  cbn [List.filter]. rewrite filter_cons.
  destruct (str_eqb (Revision.stage r) (Stage.id stage)) eqn:E.
  - apply str_eqb_eq in E. rewrite decide_True by exact E.
    cbn [length]. now rewrite IH.
  - rewrite decide_False; [exact IH|].
    intros H. apply str_eqb_eq in H. congruence.
Qed.

End SampleComponent.

(** ** The claims *)

Section Claims.

Import LawTracker Query.

Variable Date_getTime : jsstring -> option Z.

(** In a snapshot whose dates are valid, a returned record with the better
    tier, or the same tier and the smaller capped day distance, is in front
    of the other. *)
Lemma ranking_pair_order (items : list (option Item))
  (q process action now : jsstring) (x y : Item) (dx dy : Z) :
  dates_ok Date_getTime now items ->
  x ∈ filtered Date_getTime items q process action now ->
  y ∈ filtered Date_getTime items q process action now ->
  cappedDays Date_getTime now x = Some dx ->
  cappedDays Date_getTime now y = Some dy ->
  tier x > tier y \/ (tier x = tier y /\ dx < dy) ->
  appears_before x y (filtered Date_getTime items q process action now)
  /\ ~ appears_before y x (filtered Date_getTime items q process action now).
Proof.
  intros Hok Hx Hy Hdx Hdy Hord.
  pose proof (filtered_descending Date_getTime items q process action now Hok)
    as Hdesc.
  pose proof (rankKey_order Date_getTime now x y dx dy Hdx Hdy Hord) as Hkey.
  split.
  - now apply (descending_in_front (rankKey Date_getTime now)).
  - now apply (descending_not_behind (rankKey Date_getTime now)).
Qed.

(** C1. For every snapshot and every filter, the query returns exactly the
    records that satisfy the logical AND of the criteria, a filter value
    ["all"] (an empty search text) imposing nothing on its axis: the result
    is a rearrangement of the matching records, each as often as the
    snapshot has it.  In particular the stage ["promulgated"] with the
    search text "化学物質" returns exactly the records whose stage is
    ["promulgated"] and whose search text contains "化学物質". *)
Theorem query_returns_matching_records (items : list (option Item))
  (q process action now : jsstring) :
  filtered Date_getTime items q process action now
    ≡ₚ List.filter (satisfies q process action) (records items)
  /\ (forall it,
        it ∈ filtered Date_getTime items q process action now
        <-> Some it ∈ items
            /\ (process = all \/ It.process it = Some process)
            /\ (action = all \/ It.action it = Some action)
            /\ (trim q = [] \/ substring_of (trim q) (blob it)))
  /\ (forall it,
        it ∈ filtered Date_getTime items (js "化学物質") (js "promulgated") all now
        <-> Some it ∈ items
            /\ It.process it = Some (js "promulgated")
            /\ substring_of (js "化学物質") (blob it)).
Proof.
  split; [apply filtered_matching|]. split.
  - intros it. now rewrite elem_of_filtered, satisfies_spec.
  - intros it. rewrite elem_of_filtered, satisfies_spec.
    change (trim (js "化学物質")) with (js "化学物質").
    split.
    + intros (Hin & [Hp|Hp] & _ & [Hq|Hq]);
        try (vm_compute in Hp; discriminate Hp);
        try (vm_compute in Hq; discriminate Hq).
      auto.
    + intros (Hin & Hp & Hq). auto.
Qed.

(** C2 (as amended).  In a snapshot whose dates are valid, the result is in
    descending order of the score, which is 1000 times the urgency tier plus
    100 minus the whole days between the update date and the current date,
    the days counted up to 100 at most.  So for every pair of records the
    query returns, the record of the more urgent tier comes first, and among
    records of one tier the record with fewer such capped days comes
    first. *)
Theorem ranking_by_tier_then_capped_days (items : list (option Item))
  (q process action now : jsstring) :
  dates_ok Date_getTime now items ->
  descending (rankKey Date_getTime now)
    (filtered Date_getTime items q process action now)
  /\ (forall x, x ∈ filtered Date_getTime items q process action now ->
        exists d, cappedDays Date_getTime now x = Some d
                  /\ 0 <= d <= 100
                  /\ rankKey Date_getTime now x = tier x * 1000 + (100 - d))
  /\ (forall x y dx dy,
        x ∈ filtered Date_getTime items q process action now ->
        y ∈ filtered Date_getTime items q process action now ->
        cappedDays Date_getTime now x = Some dx ->
        cappedDays Date_getTime now y = Some dy ->
        tier x > tier y \/ (tier x = tier y /\ dx < dy) ->
        appears_before x y (filtered Date_getTime items q process action now)
        /\ ~ appears_before y x
               (filtered Date_getTime items q process action now)).
Proof.
  intros Hok. split; [now apply filtered_descending|]. split.
  - intros x Hx. apply elem_of_filtered in Hx as [Hx _].
    unfold dates_ok in Hok. rewrite List.Forall_forall in Hok.
    apply elem_of_records, list_elem_of_In, Hok in Hx.
    rewrite recency_cappedDays in Hx.
    destruct (cappedDays Date_getTime now x) as [d|] eqn:E;
      [|now destruct Hx].
    exists d. split; [reflexivity|].
    split; [now apply (cappedDays_range Date_getTime now x)|].
    unfold rankKey. now rewrite score_eq, E.
  - intros x y dx dy. now apply ranking_pair_order.
Qed.

(** C3 (as amended).  For every record and every search text that is not
    empty once trimmed, the record satisfies the search criterion exactly
    when the trimmed text occurs, code unit for code unit, in the record's
    search text: its non-empty title, topic, law family, summary entries,
    target entries and tags, joined by single spaces.  A text found in one
    of these fields is found in the search text. *)
Theorem search_is_substring_of_blob (q : jsstring) (it : Item)
  (now : jsstring) :
  trim q <> [] ->
  (it ∈ filtered Date_getTime [Some it] q all all now
   <-> substring_of (trim q) (blob it))
  /\ (forall field,
        Some field ∈ [It.title it; It.topic it; It.law_family it]
                     ++ List.map Some (or_nil (It.summary_3 it))
                     ++ List.map Some (or_nil (It.target it))
                     ++ List.map Some (or_nil (It.tags it)) ->
        substring_of (trim q) field ->
        it ∈ filtered Date_getTime [Some it] q all all now).
Proof.
  intros Hq.
  assert (Hiff : it ∈ filtered Date_getTime [Some it] q all all now
                 <-> substring_of (trim q) (blob it)).
  { rewrite elem_of_filtered, satisfies_spec. split.
    - intros (_ & _ & _ & [H|H]); [contradiction | exact H].
    - intros H. split; [left|]; auto. }
  split; [exact Hiff|].
  intros field Hin Hsub. apply Hiff.
  apply (substring_of_join _ _ field); [|exact Hsub].
  apply elem_of_filter_Boolean. split; [|exact Hin].
  intros ->. destruct Hsub as (pre & post & H).
  destruct pre; [|discriminate]. destruct (trim q); [|discriminate].
  now apply Hq.
Qed.

(** C4 (as amended).  The query serves the records of the snapshot as they
    are stored: a served record is a record of the snapshot; it carries the
    stage of the stage filter and the action of the action filter whenever
    that filter is not ["all"], so that with filters chosen from the two
    selects its stage and action are populated and belong to the selects'
    value sets.  Every built-in sample record carries a stage of
    [revisionStages]. *)
Theorem served_records_carry_active_filters :
  (forall (items : list (option Item)) (q process action now : jsstring)
          (it : Item),
     it ∈ filtered Date_getTime items q process action now ->
     Some it ∈ items
     /\ (process <> all -> It.process it = Some process)
     /\ (action <> all -> It.action it = Some action)
     /\ (process ∈ processOptions -> action ∈ actionOptions ->
         process <> all -> action <> all ->
         exists s a, It.process it = Some s /\ It.action it = Some a
                     /\ s ∈ processOptions /\ a ∈ actionOptions))
  /\ (forall r, r ∈ SafetyLawTracker.sampleRevisions ->
        exists st,
          SafetyLawTracker.getStageInfo (SafetyLawTracker.Revision.stage r)
          = Some st
          /\ SafetyLawTracker.Stage.id st = SafetyLawTracker.Revision.stage r).
Proof.
  split.
  - intros items q process action now it Hin.
    apply elem_of_filtered in Hin as [Hin Hsat].
    apply satisfies_spec in Hsat as (Hp & Ha & _).
    assert (HP : process <> all -> It.process it = Some process)
      by (destruct Hp; intros; congruence).
    assert (HA : action <> all -> It.action it = Some action)
      by (destruct Ha; intros; congruence).
    split; [exact Hin|]. split; [exact HP|]. split; [exact HA|].
    intros Hpo Hao Hpne Hane. exists process, action. auto.
  - intros r Hr. unfold SafetyLawTracker.sampleRevisions in Hr.
    repeat (apply elem_of_cons in Hr as [->|Hr]); [..|inversion Hr];
      eexists; (split; [vm_compute; reflexivity | reflexivity]).
Qed.

(** C5.  The ranking is deterministic and stable.  In a snapshot whose dates
    are valid, records of equal score keep their snapshot order in the
    result, and the result is the only descending arrangement of the
    matching records that does so: nothing about the order is left to the
    sorting routine, and a second evaluation, run on the store the first one
    left behind, yields an array of the same contents. *)
Theorem ranking_deterministic_and_stable (items : list (option Item))
  (q process action now : jsstring) :
  dates_ok Date_getTime now items ->
  (forall s,
     List.filter (same_score Date_getTime now s)
       (filtered Date_getTime items q process action now)
     = List.filter (same_score Date_getTime now s)
         (matching items q process action))
  /\ (forall l,
        l ≡ₚ matching items q process action ->
        descending (rankKey Date_getTime now) l ->
        (forall s,
           List.filter (same_score Date_getTime now s) l
           = List.filter (same_score Date_getTime now s)
               (matching items q process action)) ->
        l = filtered Date_getTime items q process action now)
  /\ (forall h r,
        h !! r = Some (ItemArray items) ->
        exists r1 h1 r2 h2,
          filtered_run Date_getTime r q process action now h = Some (r1, h1)
          /\ filtered_run Date_getTime r q process action now h1 = Some (r2, h2)
          /\ h2 !! r2 = h1 !! r1
          /\ h1 !! r1
             = Some (ItemArray
                       (List.map Some
                          (filtered Date_getTime items q process action now)))).
Proof.
  intros Hok.
  assert (Hstable : forall s,
     List.filter (same_score Date_getTime now s)
       (filtered Date_getTime items q process action now)
     = List.filter (same_score Date_getTime now s)
         (matching items q process action)).
  { intros s. rewrite filtered_sort. apply filter_sort.
    intros x y Hx Hy. unfold same_score in Hx, Hy.
    unfold SortCompare, byItemScoreDesc, byScoreDesc.
    fold (score Date_getTime now x). fold (score Date_getTime now y).
    destruct (score Date_getTime now x) as [sx|]; [|discriminate].
    destruct (score Date_getTime now y) as [sy|]; [|discriminate].
    apply Z.eqb_eq in Hx, Hy. cbn. lia. }
  assert (Hvalid : forall l, l ≡ₚ matching items q process action ->
            forall it, In it l -> is_Some (recency Date_getTime now it)).
  { intros l Hl it Hit. unfold dates_ok in Hok.
    rewrite List.Forall_forall in Hok. apply Hok.
    apply list_elem_of_In in Hit. rewrite Hl in Hit.
    apply elem_of_matching in Hit as [Hit _].
    now apply list_elem_of_In, elem_of_records. }
  assert (Hclass : forall l s, l ≡ₚ matching items q process action ->
            List.filter (fun it => rankKey Date_getTime now it =? s) l
            = List.filter (same_score Date_getTime now s) l).
  { intros l s Hl. apply List.filter_ext_in. intros it Hit.
    symmetry. apply same_score_rankKey. now apply (Hvalid l). }
  split; [exact Hstable|]. split.
  - intros l Hl Hdesc Hsame.
    apply (descending_stable_unique (rankKey Date_getTime now)).
    + now rewrite filtered_matching.
    + exact Hdesc.
    + now apply filtered_descending.
    + intros k. rewrite (Hclass l k Hl).
      rewrite (Hclass _ k (filtered_matching Date_getTime items q process action now)).
      now rewrite Hsame, Hstable.
  - intros h r Hr.
    pose proof (filtered_run_store Date_getTime h r items q process action now Hr)
      as H1.
    eexists _, _. 
    assert (Hr1 : (h ++ [ItemArray (List.filter (keep (trim q) process action) items);
                ScoredArray
                  (sort byScoreDesc
                     (List.map (scoreOf Date_getTime now)
                        (kept items (trim q) process action)));
                ItemArray
                  (List.map Some
                     (filtered Date_getTime items q process action now))]) !! r
                  = Some (ItemArray items)).
    { now apply lookup_app_l_Some. }
    pose proof (filtered_run_store Date_getTime _ r items q process action now Hr1)
      as H2.
    eexists _, _. split; [exact H1|]. split; [exact H2|].
    assert (Hlast : forall (h0 : list array) a b c,
              (h0 ++ [a; b; c]) !! (length h0 + 2)%nat = Some c).
    { intros h0 a b c. rewrite lookup_app_r by lia.
      now replace (length h0 + 2 - length h0)%nat with 2%nat by lia. }
    unfold store in *. now rewrite !Hlast.
Qed.

(** C6.  Evaluating the query leaves the snapshot unchanged: the run
    succeeds, the array the snapshot refers to holds the same entries
    afterwards, as does every other array of the store, and the result is a
    new array, distinct from the snapshot, holding the records of
    [filtered]. *)
Theorem query_leaves_snapshot_unchanged (h : store) (r : ref)
  (items : list (option Item)) (q process action now : jsstring) :
  h !! r = Some (ItemArray items) ->
  exists r' h',
    filtered_run Date_getTime r q process action now h = Some (r', h')
    /\ h' !! r = Some (ItemArray items)
    /\ (forall l a, h !! l = Some a -> h' !! l = Some a)
    /\ r' <> r
    /\ h' !! r'
       = Some (ItemArray
                 (List.map Some
                    (filtered Date_getTime items q process action now))).
Proof.
  intros Hr. eexists _, _.
  split; [exact (filtered_run_store Date_getTime h r items q process action now Hr)|].
  split; [now apply lookup_app_l_Some|].
  split; [intros l a Hl; now apply lookup_app_l_Some|].
  split.
  - apply lookup_lt_Some in Hr. lia.
  - unfold store in *. rewrite lookup_app_r by lia.
    now replace (length h + 2 - length h)%nat with 2%nat by lia.
Qed.

(** C8.  A record without an action is excluded by the action filter
    ["WATCH"]; with the action filter ["all"] it is returned whenever it
    passes the stage and search criteria, and it is ranked with the urgency
    score of WATCH. *)
Theorem absent_action_is_watch_for_ranking_only (items : list (option Item))
  (q process now : jsstring) (it : Item) :
  It.action it = None ->
  ~ it ∈ filtered Date_getTime items q process (js "WATCH") now
  /\ (Some it ∈ items -> axis_ok process (It.process it) = true ->
      search_ok q it = true ->
      it ∈ filtered Date_getTime items q process all now)
  /\ actScore it = 2
  /\ (forall w, It.action w = Some (js "WATCH") -> actScore it = actScore w)
  /\ (forall w, It.action w = Some (js "WATCH") ->
        It.updated_at w = It.updated_at it ->
        score Date_getTime now it = score Date_getTime now w).
Proof.
  intros Hnone.
  assert (Hact : actScore it = 2) by (unfold actScore; now rewrite Hnone).
  assert (Hw : forall w, It.action w = Some (js "WATCH") -> actScore w = 2)
    by (intros w Hw; unfold actScore; now rewrite Hw).
  split; [|split; [|split; [exact Hact|split]]].
  - intros Hin. apply elem_of_filtered in Hin as [_ Hsat].
    apply satisfies_spec in Hsat as (_ & [Ha|Ha] & _).
    + vm_compute in Ha. discriminate Ha.
    + congruence.
  - intros Hin Hp Hs. apply elem_of_filtered. split; [exact Hin|].
    unfold satisfies. rewrite Hp, Hs. unfold axis_ok.
    now rewrite str_eqb_refl.
  - intros w Hwatch. now rewrite Hact, (Hw w Hwatch).
  - intros w Hwatch Hupd. rewrite !score_eq. unfold tier, cappedDays.
    now rewrite Hact, (Hw w Hwatch), Hupd.
Qed.

(** C9.  A record without an update date is ranked as updated on the current
    date: its recency is 100, the largest any record gets, and in a snapshot
    whose dates are valid it is returned ahead of every record of the same
    tier updated one or more days before the current date. *)
Theorem absent_update_date_ranks_as_today (items : list (option Item))
  (q process action now : jsstring) (x y : Item) (updated : jsstring)
  (tn ty : Z) :
  dates_ok Date_getTime now items ->
  Date_getTime now = Some tn ->
  It.updated_at x = None ->
  It.updated_at y = Some updated -> updated <> [] ->
  Date_getTime updated = Some ty -> ty + IsoDate.msPerDay <= tn ->
  tier x = tier y ->
  x ∈ filtered Date_getTime items q process action now ->
  y ∈ filtered Date_getTime items q process action now ->
  recency Date_getTime now x = Some 100
  /\ (forall z r, recency Date_getTime now z = Some r -> r <= 100)
  /\ (forall w, It.updated_at w = Some now -> tier w = tier x ->
        score Date_getTime now w = score Date_getTime now x)
  /\ appears_before x y (filtered Date_getTime items q process action now)
  /\ ~ appears_before y x (filtered Date_getTime items q process action now).
Proof.
  intros Hok Hnow Hx Hy Hne Hty Hday Htier Hinx Hiny.
  assert (Hcx : cappedDays Date_getTime now x = Some 0).
  { unfold cappedDays. rewrite Hx. cbn [or_else].
    rewrite (daysBetween_eq Date_getTime now now tn tn Hnow Hnow).
    now rewrite Z.sub_diag. }
  assert (Hcy : exists dy, cappedDays Date_getTime now y = Some dy /\ 1 <= dy).
  { unfold cappedDays. rewrite Hy.
    replace (or_else (Some updated) now) with updated
      by (destruct updated; [contradiction | reflexivity]).
    rewrite (daysBetween_eq Date_getTime updated now ty tn Hty Hnow).
    eexists. split; [reflexivity|].
    assert (1 <= Z.abs (ty - tn) / IsoDate.msPerDay); [|lia].
    apply Z.div_le_lower_bound; unfold IsoDate.msPerDay in *; lia. }
  destruct Hcy as (dy & Hcy & Hdy).
  split; [rewrite recency_cappedDays, Hcx; reflexivity|].
  split; [intros z r Hr; now apply recency_range in Hr|].
  split.
  { intros w Hw Htw. rewrite !score_eq, Htw. unfold cappedDays.
    rewrite Hw, Hx. now destruct now. }
  apply (ranking_pair_order items q process action now x y 0 dy); auto.
  right. split; [exact Htier | lia].
Qed.

(** C10.  The recency of a record depends only on the absolute whole-day
    difference between its update date and the current date, and saturates
    at 100 days: two records of one tier score the same when their dates
    have the same whole-day distance from the current date, in particular
    when one lies [k] days after it and the other [k] days before it, and
    when both lie 100 days or more away from it. *)
Theorem recency_is_capped_absolute_day_distance (now : jsstring)
  (x y : Item) (tn tx ty : Z) :
  Date_getTime now = Some tn ->
  Date_getTime (or_else (It.updated_at x) now) = Some tx ->
  Date_getTime (or_else (It.updated_at y) now) = Some ty ->
  tier x = tier y ->
  recency Date_getTime now x
  = Some (100 - Z.min 100 (Z.abs (tx - tn) / IsoDate.msPerDay))
  /\ (Z.abs (tx - tn) / IsoDate.msPerDay = Z.abs (ty - tn) / IsoDate.msPerDay ->
      score Date_getTime now x = score Date_getTime now y)
  /\ (forall k, tx = tn + k * IsoDate.msPerDay ->
                ty = tn - k * IsoDate.msPerDay ->
                score Date_getTime now x = score Date_getTime now y)
  /\ (Z.abs (tx - tn) >= 100 * IsoDate.msPerDay ->
      Z.abs (ty - tn) >= 100 * IsoDate.msPerDay ->
      score Date_getTime now x = score Date_getTime now y
      /\ recency Date_getTime now x = Some 0).
Proof.
  intros Hnow Hx Hy Htier.
  assert (Hrec : forall z tz,
            Date_getTime (or_else (It.updated_at z) now) = Some tz ->
            recency Date_getTime now z
            = Some (100 - Z.min 100 (Z.abs (tz - tn) / IsoDate.msPerDay))).
  { intros z tz Hz. unfold recency. cbv zeta.
    now rewrite (daysBetween_eq Date_getTime _ now tz tn Hz Hnow). }
  assert (Hscore : forall z tz,
            Date_getTime (or_else (It.updated_at z) now) = Some tz ->
            score Date_getTime now z
            = Some (tier z * 1000
                    + (100 - Z.min 100 (Z.abs (tz - tn) / IsoDate.msPerDay)))).
  { intros z tz Hz. unfold score, scoreOf. cbn [Scored.score].
    now rewrite (Hrec z tz Hz). }
  assert (Hfar : forall t, Z.abs (t - tn) >= 100 * IsoDate.msPerDay ->
            Z.min 100 (Z.abs (t - tn) / IsoDate.msPerDay) = 100).
  { intros t Ht. apply Z.min_l.
    apply Z.div_le_lower_bound; unfold IsoDate.msPerDay in *; lia. }
  split; [now apply Hrec|].
  rewrite (Hscore x tx Hx), (Hscore y ty Hy), Htier.
  split; [intros ->; reflexivity|]. split.
  - intros k -> ->. do 3 f_equal.
    replace (tn + k * IsoDate.msPerDay - tn) with (k * IsoDate.msPerDay) by lia.
    replace (tn - k * IsoDate.msPerDay - tn) with (- (k * IsoDate.msPerDay))
      by lia.
    now rewrite Z.abs_opp.
  - intros Hfx Hfy. rewrite (Hrec x tx Hx), (Hfar tx Hfx), (Hfar ty Hfy).
    split; reflexivity.
Qed.

End Claims.

(** C7 (as amended).  For every snapshot and every stage of
    [revisionStages], the badges report for that stage the number of records
    of the whole snapshot whose stage is that stage's id, and nothing else,
    whatever the search text and the selected stage are.  (Counts per action
    are not computed.) *)
Theorem stage_badges_count_whole_snapshot
  (revisions : list SafetyLawTracker.Revision)
  (searchTerm selectedStage : jsstring) (stage : SafetyLawTracker.Stage) :
  stage ∈ SafetyLawTracker.revisionStages ->
  Spec.reports
    (SafetyLawTracker.View.badges
       (SafetyLawTracker.render revisions searchTerm selectedStage))
    (SafetyLawTracker.Stage.id stage)
    (Spec.count_stage revisions (SafetyLawTracker.Stage.id stage))
  /\ (forall n,
        Spec.reports
          (SafetyLawTracker.View.badges
             (SafetyLawTracker.render revisions searchTerm selectedStage))
          (SafetyLawTracker.Stage.id stage) n ->
        n = Spec.count_stage revisions (SafetyLawTracker.Stage.id stage))
  /\ SafetyLawTracker.View.badges
       (SafetyLawTracker.render revisions searchTerm selectedStage)
     = SafetyLawTracker.View.badges
         (SafetyLawTracker.render revisions [] SafetyLawTracker.all).
Proof.
  intros Hstage. unfold Spec.reports, SafetyLawTracker.render.
  cbn [SafetyLawTracker.View.badges].
  split; [|split; [|reflexivity]].
  - rewrite <- stageCount_count_stage.
    apply list_elem_of_In, List.in_map_iff. exists stage.
    split; [reflexivity | now apply list_elem_of_In].
  - intros n Hn. apply list_elem_of_In, List.in_map_iff in Hn
      as (stage' & E & _).
    injection E as Eid <-. rewrite stageCount_count_stage. now rewrite Eid.
Qed.

(** ** Evaluations on the fixtures *)

Example date_only_epoch : IsoDate.date_only (js "1970-01-01") = Some 0.
Proof. reflexivity. Qed.

Example date_only_now :
  IsoDate.date_only Fixture.now = Some 1748736000000.
Proof. reflexivity. Qed.

Example utf16_kagaku_busshitsu :
  js "化学物質" = [21270; 23398; 29289; 36074]%N.
Proof. reflexivity. Qed.

Example trim_strips_ideographic_space :
  trim (js " 化学物質　") = js "化学物質".
Proof. reflexivity. Qed.

Example snapshot_ranked :
  LawTracker.filtered IsoDate.date_only Fixture.snapshot [] LawTracker.all
    LawTracker.all Fixture.now
  = [Fixture.urgent; Fixture.bare; Fixture.recent; Fixture.ahead;
     Fixture.older; Fixture.newer].
Proof. vm_compute. reflexivity. Qed.

Example snapshot_scores :
  List.map (Query.score IsoDate.date_only Fixture.now)
    (Query.records Fixture.snapshot)
  = [Some 2000; Some 2090; Some 2100; Some 2000; Some 4000; Some 2090].
Proof. vm_compute. reflexivity. Qed.

Example snapshot_promulgated_kagaku :
  LawTracker.filtered IsoDate.date_only Fixture.snapshot (js "化学物質")
    (js "promulgated") LawTracker.all Fixture.now
  = [Fixture.urgent; Fixture.bare].
Proof. vm_compute. reflexivity. Qed.

Example sample_badges :
  SafetyLawTracker.View.badges
    (SafetyLawTracker.render SafetyLawTracker.sampleRevisions []
       SafetyLawTracker.all)
  = [(js "consideration", 1%nat); (js "public_comment", 0%nat);
     (js "deliberation", 0%nat); (js "promulgated", 1%nat);
     (js "enforcement_scheduled", 1%nat); (js "enforced", 1%nat)].
Proof. vm_compute. reflexivity. Qed.

(** The sample component searches title and description only: the law name
    of the fourth sample is not found. *)
Example sample_search_skips_lawName :
  SafetyLawTracker.filteredRevisions SafetyLawTracker.sampleRevisions
    (js "特定化学物質") SafetyLawTracker.all = [].
Proof. vm_compute. reflexivity. Qed.

(** [sort] reorders the array it is called on. *)
Example sort_is_in_place :
  let a := LawTracker.scoreOf IsoDate.date_only Fixture.now Fixture.older in
  let b := LawTracker.scoreOf IsoDate.date_only Fixture.now Fixture.urgent in
  LawTracker.Array_sort LawTracker.byScoreDesc 0%nat
    [LawTracker.ScoredArray [a; b]]
  = Some (0%nat, [LawTracker.ScoredArray [b; a]]).
Proof. vm_compute. reflexivity. Qed.

Lemma fixture_dates_ok :
  Query.dates_ok IsoDate.date_only Fixture.now Fixture.snapshot.
Proof.
  unfold Query.dates_ok.
  change (Query.records Fixture.snapshot)
    with [Fixture.older; Fixture.recent; Fixture.bare; Fixture.newer;
          Fixture.urgent; Fixture.ahead].
  repeat (constructor; [eexists; vm_compute; reflexivity|]). constructor.
Defined.

Lemma appears_before_pair {A} (x y a b : A) :
  appears_before x y [a; b] -> x = a /\ y = b.
Proof.
  intros (l1 & l2 & l3 & H).
  destruct l1 as [|c l1]; cbn in H.
  - injection H as -> H. destruct l2 as [|d l2]; cbn in H.
    + now injection H as ->.
    + injection H as _ H. destruct l2; discriminate H.
  - injection H as _ H. destruct l1 as [|d l1]; cbn in H.
    + injection H as _ H. destruct l2; discriminate H.
    + injection H as _ H. destruct l1; discriminate H.
Qed.

(** ** Instances of the theorems *)

Lemma query_returns_matching_records_witness :
  Some Fixture.urgent ∈ Fixture.snapshot
  /\ LawTracker.It.process Fixture.urgent = Some (js "promulgated")
  /\ substring_of (js "化学物質") (LawTracker.blob Fixture.urgent).
Proof.
  apply (proj1 (proj2 (proj2
           (query_returns_matching_records IsoDate.date_only Fixture.snapshot
              [] LawTracker.all LawTracker.all Fixture.now))
           Fixture.urgent)).
  rewrite snapshot_promulgated_kagaku. left.
Defined.

Lemma ranking_by_tier_then_capped_days_witness :
  appears_before Fixture.recent Fixture.older
    (LawTracker.filtered IsoDate.date_only Fixture.snapshot [] LawTracker.all
       LawTracker.all Fixture.now)
  /\ appears_before Fixture.urgent Fixture.bare
       (LawTracker.filtered IsoDate.date_only Fixture.snapshot []
          LawTracker.all LawTracker.all Fixture.now).
Proof.
  destruct (ranking_by_tier_then_capped_days IsoDate.date_only
              Fixture.snapshot [] LawTracker.all LawTracker.all Fixture.now
              fixture_dates_ok) as (_ & _ & Hpair).
  split.
  - apply (Hpair Fixture.recent Fixture.older 10 100);
      [rewrite snapshot_ranked; do 2 right; left
      |rewrite snapshot_ranked; do 4 right; left
      |reflexivity | reflexivity | right; split; [reflexivity | lia]].
  - apply (Hpair Fixture.urgent Fixture.bare 100 0);
      [rewrite snapshot_ranked; left
      |rewrite snapshot_ranked; right; left
      |reflexivity | reflexivity | left; vm_compute; reflexivity].
Defined.

Lemma search_is_substring_of_blob_witness :
  Fixture.urgent
    ∈ LawTracker.filtered IsoDate.date_only [Some Fixture.urgent]
        (js " 選任　") LawTracker.all LawTracker.all Fixture.now
  <-> substring_of (js "選任") (LawTracker.blob Fixture.urgent).
Proof.
  apply (search_is_substring_of_blob IsoDate.date_only (js " 選任　")
           Fixture.urgent Fixture.now).
  vm_compute. discriminate.
Defined.

Lemma served_records_carry_active_filters_witness :
  Some Fixture.urgent ∈ Fixture.snapshot
  /\ LawTracker.It.process Fixture.urgent = Some (js "promulgated")
  /\ LawTracker.It.action Fixture.urgent = Some (js "ACT_NOW").
Proof.
  destruct (proj1 (served_records_carry_active_filters IsoDate.date_only)
              Fixture.snapshot [] (js "promulgated") (js "ACT_NOW")
              Fixture.now Fixture.urgent) as (Hin & Hp & Ha & _).
  - vm_compute. left.
  - split; [exact Hin|]. split; [apply Hp | apply Ha]; vm_compute; discriminate.
Defined.

Lemma ranking_deterministic_and_stable_witness :
  List.filter (Query.same_score IsoDate.date_only Fixture.now 2000)
    (LawTracker.filtered IsoDate.date_only Fixture.snapshot [] LawTracker.all
       LawTracker.all Fixture.now)
  = [Fixture.older; Fixture.newer].
Proof.
  rewrite (proj1 (ranking_deterministic_and_stable IsoDate.date_only
                    Fixture.snapshot [] LawTracker.all LawTracker.all
                    Fixture.now fixture_dates_ok) 2000).
  vm_compute. reflexivity.
Defined.

Lemma query_leaves_snapshot_unchanged_witness :
  exists r' h',
    LawTracker.filtered_run IsoDate.date_only 0%nat [] LawTracker.all
      LawTracker.all Fixture.now [LawTracker.ItemArray Fixture.snapshot]
    = Some (r', h')
    /\ h' !! 0%nat = Some (LawTracker.ItemArray Fixture.snapshot)
    /\ r' <> 0%nat.
Proof.
  destruct (query_leaves_snapshot_unchanged IsoDate.date_only
              [LawTracker.ItemArray Fixture.snapshot] 0%nat Fixture.snapshot
              [] LawTracker.all LawTracker.all Fixture.now eq_refl)
    as (r' & h' & Hrun & Hsame & _ & Hfresh & _).
  exists r', h'. auto.
Defined.

Lemma stage_badges_count_whole_snapshot_witness :
  Spec.reports
    (SafetyLawTracker.View.badges
       (SafetyLawTracker.render SafetyLawTracker.sampleRevisions
          (js "化学物質") (js "enforced")))
    (js "promulgated") 1%nat.
Proof.
  refine (proj1 (stage_badges_count_whole_snapshot
                   SafetyLawTracker.sampleRevisions (js "化学物質")
                   (js "enforced") Fixture.promulgated_stage _)).
  do 3 right. left.
Defined.

Lemma absent_action_is_watch_for_ranking_only_witness :
  ~ Fixture.bare
      ∈ LawTracker.filtered IsoDate.date_only Fixture.snapshot []
          LawTracker.all (js "WATCH") Fixture.now
  /\ LawTracker.actScore Fixture.bare = 2.
Proof.
  destruct (absent_action_is_watch_for_ranking_only IsoDate.date_only
              Fixture.snapshot [] LawTracker.all Fixture.now Fixture.bare
              eq_refl) as (Hout & _ & Hscore & _).
  split; [exact Hout | exact Hscore].
Defined.

Lemma absent_update_date_ranks_as_today_witness :
  LawTracker.recency IsoDate.date_only Fixture.now Fixture.bare = Some 100
  /\ appears_before Fixture.bare Fixture.recent
       (LawTracker.filtered IsoDate.date_only Fixture.snapshot []
          LawTracker.all LawTracker.all Fixture.now).
Proof.
  destruct (absent_update_date_ranks_as_today IsoDate.date_only
              Fixture.snapshot [] LawTracker.all LawTracker.all Fixture.now
              Fixture.bare Fixture.recent (js "2025-05-22")
              1748736000000 1747872000000) as (Hrec & _ & _ & Hbefore & _).
  - exact fixture_dates_ok.
  - reflexivity.
  - reflexivity.
  - reflexivity.
  - vm_compute. discriminate.
  - reflexivity.
  - vm_compute. discriminate.
  - reflexivity.
  - rewrite snapshot_ranked. right; left.
  - rewrite snapshot_ranked. do 2 right; left.
  - split; [exact Hrec | exact Hbefore].
Defined.

Lemma recency_is_capped_absolute_day_distance_witness :
  Query.score IsoDate.date_only Fixture.now Fixture.ahead
  = Query.score IsoDate.date_only Fixture.now Fixture.recent
  /\ Query.score IsoDate.date_only Fixture.now Fixture.older
     = Query.score IsoDate.date_only Fixture.now Fixture.newer.
Proof.
  split.
  - refine (proj1 (proj2 (proj2
              (recency_is_capped_absolute_day_distance IsoDate.date_only
                 Fixture.now Fixture.ahead Fixture.recent 1748736000000
                 1749600000000 1747872000000 _ _ _ _))) 10 _ _);
      reflexivity.
  - refine (proj1 (proj2 (proj2 (proj2
              (recency_is_capped_absolute_day_distance IsoDate.date_only
                 Fixture.now Fixture.older Fixture.newer 1748736000000
                 1704067200000 1717200000000 _ _ _ _))) _ _));
      try reflexivity; vm_compute; discriminate.
Defined.

(** ** Where the specification and the code part *)

(** C2 as stated fails: two WATCH records updated 517 and 365 days before
    the current date both have recency 0; the one stored first stays first
    although the other was updated more recently. *)
Lemma more_recent_record_listed_later :
  let result :=
    LawTracker.filtered IsoDate.date_only
      [Some Fixture.older; Some Fixture.newer] [] LawTracker.all
      LawTracker.all Fixture.now in
  Query.dates_ok IsoDate.date_only Fixture.now
    [Some Fixture.older; Some Fixture.newer]
  /\ Spec.ranks_before IsoDate.date_only Fixture.now Fixture.newer Fixture.older
  /\ result = [Fixture.older; Fixture.newer]
  /\ ~ appears_before Fixture.newer Fixture.older result.
Proof.
  assert (Hres : LawTracker.filtered IsoDate.date_only
                   [Some Fixture.older; Some Fixture.newer] []
                   LawTracker.all LawTracker.all Fixture.now
                 = [Fixture.older; Fixture.newer])
    by (vm_compute; reflexivity).
  cbv zeta. rewrite Hres. split; [|split; [|split; [reflexivity|]]].
  - repeat (constructor; [eexists; vm_compute; reflexivity|]). constructor.
  - right. split; [reflexivity|]. exists 365, 517.
    split; [vm_compute; reflexivity|]. split; [vm_compute; reflexivity | lia].
  - intros H. apply appears_before_pair in H as [H _].
    apply (f_equal LawTracker.It.id) in H. vm_compute in H. discriminate H.
Qed.

(** C3 as stated fails: a search text that spans the space between two
    joined fields matches although it occurs in no single field. *)
Lemma search_text_spanning_two_fields :
  let searchText := js "安全 衛生" in
  searchText <> []
  /\ LawTracker.filtered IsoDate.date_only [Some Fixture.unclassified]
       searchText LawTracker.all LawTracker.all Fixture.now
     = [Fixture.unclassified]
  /\ Spec.search_matches searchText Fixture.unclassified = false.
Proof.
  cbv zeta. split; [vm_compute; discriminate|].
  split; vm_compute; reflexivity.
Qed.

(** C4 as stated fails: the query serves a record that has neither stage nor
    action, and the first built-in sample record carries the stage
    ["consideration"], which is not one of the six names of the claim. *)
Lemma unclassified_record_is_served :
  LawTracker.filtered IsoDate.date_only [Some Fixture.unclassified] []
    LawTracker.all LawTracker.all Fixture.now
  = [Fixture.unclassified]
  /\ Spec.classified (LawTracker.It.process Fixture.unclassified)
       (LawTracker.It.action Fixture.unclassified) = false
  /\ exists r, r ∈ SafetyLawTracker.sampleRevisions
               /\ SafetyLawTracker.Revision.id r = 0
               /\ Spec.member (Some (SafetyLawTracker.Revision.stage r))
                    Spec.stages = false.
Proof.
  split; [vm_compute; reflexivity|]. split; [reflexivity|].
  eexists. split; [left|]. split; reflexivity.
Qed.

(** C7 as stated fails: the badges hold one count per stage and none for an
    action. *)
Lemma no_count_per_action :
  ~ Spec.stats_complete
      (List.map SafetyLawTracker.Stage.id SafetyLawTracker.revisionStages)
      (SafetyLawTracker.View.badges
         (SafetyLawTracker.render SafetyLawTracker.sampleRevisions []
            SafetyLawTracker.all)).
Proof.
  intros [_ Hactions].
  destruct (Hactions (js "WATCH")) as [n Hn]; [left|].
  unfold Spec.reports in Hn. rewrite sample_badges in Hn.
  repeat (apply elem_of_cons in Hn as [Hn|Hn];
          [apply (f_equal fst) in Hn; vm_compute in Hn; discriminate Hn|]).
  inversion Hn.
Qed.

(** * Further properties of the two components *)

(** ** Trimming *)

Lemma trimStart_suffix (s : jsstring) :
  exists pre, s = pre ++ trimStart s /\ forallb isWhiteSpace pre = true.
Proof.
  induction s as [|c s (pre & E & Hpre)]; [now exists []|].
  cbn [trimStart]. destruct (isWhiteSpace c) eqn:Hc.
  - exists (c :: pre). cbn [forallb app]. rewrite Hc, Hpre, <- E. auto.
  - now exists [].
Qed.

Lemma trimStart_idem (s : jsstring) : trimStart (trimStart s) = trimStart s.
Proof.
  induction s as [|c s IH]; [reflexivity|]. cbn [trimStart].
  destruct (isWhiteSpace c) eqn:Hc; [exact IH|].
  cbn [trimStart]. now rewrite Hc.
Qed.

Lemma trimStart_blank (s : jsstring) :
  forallb isWhiteSpace s = true -> trimStart s = [].
Proof.
  induction s as [|c s IH]; [reflexivity|]. cbn [forallb trimStart].
  intros H. apply andb_true_iff in H as [-> H]. auto.
Qed.

Lemma trimStart_keeps_last (l : jsstring) (c : N) :
  isWhiteSpace c = false -> exists w, trimStart (l ++ [c]) = w ++ [c].
Proof.
  intros Hc. induction l as [|d l (w & IH)]; cbn [app trimStart].
  - rewrite Hc. now exists [].
  - destruct (isWhiteSpace d); [now exists w|]. now exists (d :: l).
Qed.

Lemma trimEnd_prefix (s : jsstring) :
  exists post, s = trimEnd s ++ post /\ forallb isWhiteSpace post = true.
Proof.
  unfold trimEnd. destruct (trimStart_suffix (rev s)) as (pre & E & Hpre).
  exists (rev pre). split.
  - rewrite <- rev_app_distr, <- E. now rewrite rev_involutive.
  - rewrite forallb_forall in Hpre |- *. intros c Hc.
    apply Hpre. now apply in_rev.
Qed.

Lemma trimEnd_idem (s : jsstring) : trimEnd (trimEnd s) = trimEnd s.
Proof. unfold trimEnd. now rewrite rev_involutive, trimStart_idem. Qed.

(** A string that starts with no white space keeps its start when trimmed
    at the end. *)
Lemma trimStart_trimEnd (s : jsstring) :
  trimStart (trimEnd (trimStart s)) = trimEnd (trimStart s).
Proof.
  destruct (trimStart s) as [|c u] eqn:E; [reflexivity|].
  assert (Hc : isWhiteSpace c = false).
  { pose proof (trimStart_idem s) as H. rewrite E in H. cbn [trimStart] in H.
    destruct (isWhiteSpace c); [|reflexivity].
    destruct (trimStart_suffix u) as (pre & Eu & _).
    apply (f_equal (@length N)) in H. rewrite Eu in H at 2.
    cbn [length] in H. rewrite length_app in H. lia. }
  unfold trimEnd. cbn [rev].
  destruct (trimStart_keeps_last (rev u) c Hc) as (w & ->).
  rewrite rev_app_distr. cbn [rev app trimStart]. now rewrite Hc.
Qed.

Lemma trim_idem (s : jsstring) : trim (trim s) = trim s.
Proof. unfold trim. now rewrite trimStart_trimEnd, trimEnd_idem. Qed.

Lemma trim_blank (s : jsstring) :
  forallb isWhiteSpace s = true -> trim s = [].
Proof. intros H. unfold trim. now rewrite (trimStart_blank s H). Qed.

Lemma trim_substring (s : jsstring) : substring_of (trim s) s.
Proof.
  unfold substring_of, trim.
  destruct (trimStart_suffix s) as (pre & E & _).
  destruct (trimEnd_prefix (trimStart s)) as (post & E' & _).
  exists pre, post. now rewrite <- E', <- E.
Qed.

Lemma substring_of_trans (r s t : jsstring) :
  substring_of r s -> substring_of s t -> substring_of r t.
Proof.
  intros (p1 & q1 & ->) (p2 & q2 & ->).
  exists (p2 ++ p1), (q1 ++ q2). now rewrite <- !app_assoc.
Qed.

Lemma substring_of_refl (s : jsstring) : substring_of s s.
Proof. exists [], []. now rewrite app_nil_r. Qed.

Lemma substring_of_nil (t : jsstring) : substring_of t [] -> t = [].
Proof.
  intros (pre & post & H). destruct pre; [|discriminate].
  destruct t; [reflexivity | discriminate].
Qed.

Lemma includes_mono (s t t' : jsstring) :
  substring_of t t' -> includes s t' = true -> includes s t = true.
Proof.
  rewrite !includes_spec. intros H H'. now apply (substring_of_trans t t' s).
Qed.

(** ** Lists *)

Lemma Permutation_List_filter {A} (P : A -> bool) (l l' : list A) :
  l ≡ₚ l' -> List.filter P l ≡ₚ List.filter P l'.
Proof.
  induction 1 as [|x l l' _ IH|x y l|l l' l'' _ IH1 _ IH2];
    cbn [List.filter].
  - reflexivity.
  - destruct (P x); [now rewrite IH | exact IH].
  - destruct (P x), (P y); try reflexivity. apply Permutation_swap.
  - now rewrite IH1.
Qed.

Lemma List_filter_comm {A} (P Q : A -> bool) (l : list A) :
  List.filter P (List.filter Q l) = List.filter Q (List.filter P l).
Proof.
  induction l as [|x l IH]; [reflexivity|]. cbn [List.filter].
  destruct (P x) eqn:Px, (Q x) eqn:Qx; cbn [List.filter];
    rewrite ?Px, ?Qx, IH; reflexivity.
Qed.

Lemma List_filter_and {A} (P Q : A -> bool) (l : list A) :
  (forall x, P x = true -> Q x = true) ->
  List.filter P (List.filter Q l) = List.filter P l.
Proof.
  intros HPQ. induction l as [|x l IH]; [reflexivity|]. cbn [List.filter].
  destruct (Q x) eqn:Qx; cbn [List.filter].
  - now rewrite IH.
  - destruct (P x) eqn:Px; [|exact IH]. apply HPQ in Px. congruence.
Qed.

Lemma List_filter_filter {A} (P Q : A -> bool) (l : list A) :
  List.filter P (List.filter Q l) = List.filter (fun x => P x && Q x) l.
Proof.
  induction l as [|x l IH]; [reflexivity|]. cbn [List.filter].
  destruct (Q x) eqn:Qx; cbn [List.filter]; rewrite IH;
    destruct (P x); reflexivity.
Qed.

Lemma sublist_List_filter {A} (P : A -> bool) (l : list A) :
  sublist (List.filter P l) l.
Proof.
  induction l as [|x l IH]; [constructor|]. cbn [List.filter].
  destruct (P x); now constructor.
Qed.

Lemma descending_List_filter {A} (key : A -> Z) (P : A -> bool) (l : list A) :
  descending key l -> descending key (List.filter P l).
Proof.
  unfold descending. induction 1 as [|x l Hs IH Hall]; [constructor|].
  cbn [List.filter]. destruct (P x); [|exact IH].
  constructor; [exact IH|].
  rewrite List.Forall_forall in Hall |- *. intros y Hy.
  apply List.filter_In in Hy as [Hy _]. now apply Hall.
Qed.

Lemma appears_before_sublist {A} (x y : A) (l : list A) :
  appears_before x y l <-> sublist [x; y] l.
Proof.
  split.
  - intros (l1 & l2 & l3 & ->).
    apply sublist_inserts_l. apply sublist_skip.
    apply sublist_inserts_l. apply sublist_skip. apply sublist_nil_l.
  - induction l as [|a l IH]; intros H.
    + inversion H.
    + apply sublist_cons_r in H as [H|(l' & E & H)].
      * destruct (IH H) as (l1 & l2 & l3 & ->).
        now exists (a :: l1), l2, l3.
      * injection E as <- <-.
        apply singleton_sublist_l, list_elem_of_split in H as (l2 & l3 & ->).
        now exists [], l2, l3.
Qed.

Lemma omap_id_Some {A} (l : list A) : omap id (List.map Some l) = l.
Proof. induction l as [|x l IH]; [reflexivity|]. cbn. now rewrite IH. Qed.

(** ** More on the query of [LawTracker] *)

Section MoreFiltered.

Import LawTracker Query LawTrackerView.

Lemma satisfies_unfiltered (it : Item) : satisfies [] all all it = true.
Proof. reflexivity. Qed.

Lemma matching_unfiltered (items : list (option Item)) :
  matching items [] all all = records items.
Proof.
  unfold matching. erewrite List.filter_ext; [apply List.filter_true|].
  apply satisfies_unfiltered.
Qed.

(** A narrower filter: the stage and action filters agree or the wider one
    is ["all"], and the wider search text occurs in the narrower one. *)
Lemma satisfies_narrower (q q' process process' action action' : jsstring)
  (it : Item) :
  substring_of (trim q) (trim q') ->
  process = all \/ process = process' ->
  action = all \/ action = action' ->
  satisfies q' process' action' it = true ->
  satisfies q process action it = true.
Proof.
  intros Hq Hp Ha. rewrite !satisfies_spec.
  intros (Hp' & Ha' & Hq'). split; [|split].
  - destruct Hp as [->| ->]; [now left | exact Hp'].
  - destruct Ha as [->| ->]; [now left | exact Ha'].
  - destruct Hq' as [E|Hsub].
    + left. rewrite E in Hq. now apply substring_of_nil.
    + right. now apply (substring_of_trans _ (trim q')).
Qed.

Variable Date_getTime : jsstring -> option Z.

Lemma filtered_classes (items : list (option Item))
  (q process action now : jsstring) (s : Z) :
  List.filter (same_score Date_getTime now s)
    (filtered Date_getTime items q process action now)
  = List.filter (same_score Date_getTime now s)
      (matching items q process action).
Proof.
  rewrite filtered_sort. apply filter_sort.
  intros x y Hx Hy. unfold same_score in Hx, Hy.
  unfold SortCompare, byItemScoreDesc, byScoreDesc.
  fold (score Date_getTime now x). fold (score Date_getTime now y).
  destruct (score Date_getTime now x) as [sx|]; [|discriminate].
  destruct (score Date_getTime now y) as [sy|]; [|discriminate].
  apply Z.eqb_eq in Hx, Hy. cbn. lia.
Qed.

Lemma rankKey_classes (items : list (option Item)) (now : jsstring)
  (l : list Item) (k : Z) :
  dates_ok Date_getTime now items ->
  (forall it, it ∈ l -> Some it ∈ items) ->
  List.filter (fun it => rankKey Date_getTime now it =? k) l
  = List.filter (same_score Date_getTime now k) l.
Proof.
  intros Hok Hl. apply List.filter_ext_in. intros it Hit.
  symmetry. apply same_score_rankKey.
  unfold dates_ok in Hok. rewrite List.Forall_forall in Hok. apply Hok.
  now apply list_elem_of_In, elem_of_records, Hl, list_elem_of_In.
Qed.

Lemma filtered_filter_of_ranking (items : list (option Item))
  (q process action now : jsstring) :
  dates_ok Date_getTime now items ->
  filtered Date_getTime items q process action now
  = List.filter (satisfies q process action)
      (filtered Date_getTime items [] all all now).
Proof.
  intros Hok.
  apply (descending_stable_unique (rankKey Date_getTime now)).
  - rewrite filtered_matching. unfold matching at 1.
    apply Permutation_List_filter. symmetry.
    rewrite filtered_matching. now rewrite matching_unfiltered.
  - now apply filtered_descending.
  - apply descending_List_filter. now apply filtered_descending.
  - intros k.
    rewrite (rankKey_classes items now _ k Hok)
      by (intros it Hit; now apply elem_of_filtered in Hit as [Hit _]).
    rewrite (rankKey_classes items now (List.filter _ _) k Hok).
    2:{ intros it Hit. apply list_elem_of_In, List.filter_In in Hit as [Hit _].
        now apply list_elem_of_In, elem_of_filtered in Hit as [Hit _]. }
    rewrite filtered_classes, List_filter_comm, filtered_classes.
    rewrite matching_unfiltered. unfold matching. apply List_filter_comm.
Qed.

(** X1.  A filter never reorders records: in a snapshot whose dates are
    valid, the result for any search text, stage and action is the ranking
    of the whole snapshot with the records that do not match removed, so
    two records returned under a filter stand in the order they have in the
    unfiltered list. *)
Theorem filter_never_reorders (items : list (option Item))
  (q process action now : jsstring) :
  dates_ok Date_getTime now items ->
  filtered Date_getTime items q process action now
  = List.filter (satisfies q process action)
      (filtered Date_getTime items [] all all now)
  /\ (forall x y,
        appears_before x y (filtered Date_getTime items q process action now)
        -> appears_before x y (filtered Date_getTime items [] all all now)).
Proof.
  intros Hok.
  pose proof (filtered_filter_of_ranking items q process action now Hok) as E.
  split; [exact E|].
  intros x y. rewrite !appears_before_sublist, E. intros H.
  etransitivity; [exact H | apply sublist_List_filter].
Qed.

(** X2.  Narrowing a filter only removes records: when the search text is
    extended and a stage or action filter replaces ["all"], the new result
    is the old result with some records left out, the others in the same
    order. *)
Theorem narrower_filter_gives_sublist (items : list (option Item))
  (q q' process process' action action' now : jsstring) :
  dates_ok Date_getTime now items ->
  substring_of (trim q) (trim q') ->
  process = all \/ process = process' ->
  action = all \/ action = action' ->
  sublist (filtered Date_getTime items q' process' action' now)
    (filtered Date_getTime items q process action now).
Proof.
  intros Hok Hq Hp Ha.
  rewrite (filtered_filter_of_ranking items q' process' action' now Hok).
  rewrite (filtered_filter_of_ranking items q process action now Hok).
  rewrite <- (List_filter_and (satisfies q' process' action')
                (satisfies q process action)).
  - apply sublist_List_filter.
  - intros it. now apply satisfies_narrower.
Qed.

(** X3.  The empty-list notice is shown exactly when no record of the
    snapshot satisfies the criteria, in particular for an empty snapshot;
    the result never has more records than the snapshot has entries. *)
Theorem empty_notice_iff_nothing_matches (items : list (option Item))
  (q process action now : jsstring) :
  (showsEmptyNotice (filtered Date_getTime items q process action now) = true
   <-> forall it, Some it ∈ items -> satisfies q process action it = false)
  /\ showsEmptyNotice (filtered Date_getTime [] q process action now) = true
  /\ (length (filtered Date_getTime items q process action now)
      <= length items)%nat.
Proof.
  split; [|split; [reflexivity|]].
  - unfold showsEmptyNotice. rewrite Nat.eqb_eq, length_zero_iff_nil. split.
    + intros E it Hit. destruct (satisfies q process action it) eqn:Hs;
        [|reflexivity].
      assert (H : it ∈ filtered Date_getTime items q process action now)
        by now apply elem_of_filtered.
      rewrite E in H. inversion H.
    + intros Hnone.
      destruct (filtered Date_getTime items q process action now)
        as [|it l] eqn:E; [reflexivity|].
      assert (H : it ∈ filtered Date_getTime items q process action now)
        by (rewrite E; left).
      apply elem_of_filtered in H as [Hin Hs].
      rewrite (Hnone it Hin) in Hs. discriminate Hs.
  - rewrite (Permutation_length
               (filtered_matching Date_getTime items q process action now)).
    unfold matching. etransitivity; [apply List.filter_length_le|].
    unfold records. clear. induction items as [|[it|] items IH]; cbn; lia.
Qed.

(** X4.  Null entries of the snapshot are ignored: adding or removing one
    anywhere leaves the result as it is. *)
Theorem null_entries_are_ignored (items1 items2 : list (option Item))
  (q process action now : jsstring) :
  filtered Date_getTime (items1 ++ None :: items2) q process action now
  = filtered Date_getTime (items1 ++ items2) q process action now.
Proof.
  rewrite !filtered_sort. unfold matching, records.
  now rewrite !omap_app.
Qed.

(** X5.  White space around the search text is ignored, and a search text
    of white space only is no search at all. *)
Theorem surrounding_white_space_is_ignored (items : list (option Item))
  (q process action now : jsstring) :
  filtered Date_getTime items (trim q) process action now
  = filtered Date_getTime items q process action now
  /\ (forallb isWhiteSpace q = true ->
      filtered Date_getTime items q process action now
      = filtered Date_getTime items [] process action now).
Proof.
  split.
  - unfold filtered. now rewrite trim_idem.
  - intros Hq. unfold filtered. now rewrite (trim_blank q Hq).
Qed.

(** X6.  What a card shows can be searched for: a record of the snapshot is
    returned, with no stage or action filter, for the text of its title, of
    any of its bullets (of which there are at most three), of any target
    entry and of any tag it has, unless that text is blank. *)
Theorem displayed_text_is_searchable (items : list (option Item))
  (now : jsstring) (it : Item) (text : jsstring) :
  Some it ∈ items ->
  It.title it = Some text \/ text ∈ summaryBullets it
  \/ text ∈ or_nil (It.target it) \/ hasTag it text = true ->
  trim text <> [] ->
  it ∈ filtered Date_getTime items text all all now
  /\ (length (summaryBullets it) <= 3)%nat.
Proof.
  intros Hin Hshown Htext.
  split; [|unfold summaryBullets; apply firstn_le_length].
  apply elem_of_filtered. split; [exact Hin|].
  apply satisfies_spec. split; [now left|]. split; [now left|]. right.
  apply (substring_of_trans _ text); [apply trim_substring|].
  apply (substring_of_join _ _ text); [|apply substring_of_refl].
  apply elem_of_filter_Boolean. split; [now intros ->|].
  destruct Hshown as [Ht|[Hb|[Hg|Htag]]].
  - rewrite <- Ht. left.
  - unfold summaryBullets in Hb. pose proof (sublist_take
      (filter_Boolean (List.map Some (or_nil (It.summary_3 it)))) 3) as Hsub.
    apply (elem_of_sublist _ _ _ Hb) in Hsub.
    apply elem_of_filter_Boolean in Hsub as [_ Hb'].
    do 3 right. apply elem_of_app. now left.
  - do 3 right. apply elem_of_app. right. apply elem_of_app. left.
    now apply list_elem_of_In, List.in_map, list_elem_of_In.
  - unfold hasTag in Htag. apply existsb_exists in Htag as (t & Ht & E).
    apply str_eqb_eq in E as ->.
    do 3 right. apply elem_of_app. right. apply elem_of_app. right.
    now apply list_elem_of_In, List.in_map.
Qed.

(** X7.  A record without any text is not returned for a search text that
    is not blank. *)
Theorem textless_record_never_matches_a_search (items : list (option Item))
  (q process action now : jsstring) (it : Item) :
  blob it = [] -> trim q <> [] ->
  ~ it ∈ filtered Date_getTime items q process action now.
Proof.
  intros Hblob Hq Hin. apply elem_of_filtered in Hin as [_ Hs].
  apply satisfies_spec in Hs as (_ & _ & [E|Hsub]); [contradiction|].
  rewrite Hblob in Hsub. now apply substring_of_nil in Hsub.
Qed.

(** X8.  [daysBetween] does not depend on the order of its arguments, is
    never negative, is zero from a date to itself, and is undefined exactly
    when one of the dates is invalid. *)
Theorem daysBetween_symmetric_nonnegative (a b : jsstring) :
  daysBetween Date_getTime a b = daysBetween Date_getTime b a
  /\ (forall d, daysBetween Date_getTime a b = Some d -> 0 <= d)
  /\ (daysBetween Date_getTime a b = None
      <-> Date_getTime a = None \/ Date_getTime b = None)
  /\ (Date_getTime a <> None -> daysBetween Date_getTime a a = Some 0).
Proof.
  split; [|split; [|split]].
  - unfold daysBetween.
    destruct (Date_getTime a) as [ta|], (Date_getTime b) as [tb|];
      cbn [num_sub]; try reflexivity.
    cbv zeta. do 2 f_equal.
    replace (tb - ta) with (- (ta - tb)) by lia. now rewrite Z.abs_opp.
  - intros d. apply daysBetween_nonneg.
  - unfold daysBetween.
    destruct (Date_getTime a) as [ta|], (Date_getTime b) as [tb|];
      cbn [num_sub]; split; intros H; try discriminate H; auto;
      destruct H as [H|H]; discriminate H.
  - intros Ha. destruct (Date_getTime a) as [ta|] eqn:E; [|contradiction].
    rewrite (daysBetween_eq Date_getTime a a ta ta E E).
    now rewrite Z.sub_diag.
Qed.

Lemma actScore_range (it : Item) : 1 <= actScore it <= 4.
Proof.
  unfold actScore. cbv zeta.
  destruct (str_eqb _ (js "ACT_NOW")); [lia|].
  destruct (str_eqb _ (js "PREPARE")); [lia|].
  destruct (str_eqb _ (js "WATCH")); lia.
Qed.

(** X9.  A score that is defined lies between 1000 and 4100 and determines
    both of its parts: its thousands are the urgency score, the rest is the
    recency.  So records of different urgency never tie, whatever their
    dates. *)
Theorem score_encodes_tier_and_recency (now : jsstring) (it : Item) (s : Z) :
  score Date_getTime now it = Some s ->
  1000 <= s <= 4100
  /\ s / 1000 = actScore it
  /\ recency Date_getTime now it = Some (s mod 1000)
  /\ (forall it', score Date_getTime now it' = Some s ->
        actScore it' = actScore it).
Proof.
  assert (Hparts : forall z t, score Date_getTime now z = Some t ->
            exists r, recency Date_getTime now z = Some r
                      /\ 0 <= r <= 100 /\ t = actScore z * 1000 + r).
  { intros z t. unfold score, scoreOf. cbn [Scored.score].
    destruct (recency Date_getTime now z) as [r|] eqn:Er; [|discriminate].
    intros [= <-]. exists r. split; [reflexivity|].
    split; [now apply (recency_range Date_getTime now z) | reflexivity]. }
  intros Hs. destruct (Hparts it s Hs) as (r & Hr & Hrange & ->).
  pose proof (actScore_range it) as Ha.
  assert (Hdiv : forall a r', 0 <= r' <= 100 -> (a * 1000 + r') / 1000 = a).
  { intros a r' Hr'. rewrite Z.div_add_l by lia.
    rewrite Z.div_small by lia. lia. }
  split; [lia|]. split; [now apply Hdiv|]. split.
  - rewrite Hr. f_equal. rewrite Z.add_comm, Z.mod_add by lia.
    now rewrite Z.mod_small by lia.
  - intros it' Hs'. destruct (Hparts it' _ Hs') as (r' & _ & Hrange' & E).
    apply (f_equal (fun z => z / 1000)) in E.
    rewrite !Hdiv in E by assumption. now symmetry.
Qed.

End MoreFiltered.

(** ** More on [SafetyLawTracker] *)

Section MoreSampleComponent.

Import SafetyLawTracker SafetyLawTrackerState.

Lemma includes_nil (s : jsstring) : includes s [] = true.
Proof. apply includes_spec. exists [], s. reflexivity. Qed.

Lemma stage_ids_NoDup : NoDup (List.map Stage.id revisionStages).
Proof. apply (bool_decide_unpack _). vm_compute. reflexivity. Qed.

Lemma stage_id_not_all (stage : Stage) :
  stage ∈ revisionStages -> str_eqb (Stage.id stage) all = false.
Proof.
  intros H. unfold revisionStages in H.
  repeat (apply elem_of_cons in H as [->|H]; [reflexivity|]). inversion H.
Qed.

(** X10.  The stage table answers every id it holds with the entry of that
    id and no other id at all. *)
Theorem getStageInfo_finds_exactly_the_stage (stageId : jsstring)
  (stage : Stage) :
  (getStageInfo stageId = Some stage
   <-> stage ∈ revisionStages /\ Stage.id stage = stageId)
  /\ (getStageInfo stageId = None
      <-> forall st, st ∈ revisionStages -> Stage.id st <> stageId).
Proof.
  unfold getStageInfo.
  assert (Hgen : forall stages, NoDup (List.map Stage.id stages) ->
            (List.find (fun s => str_eqb (Stage.id s) stageId) stages
             = Some stage
             <-> stage ∈ stages /\ Stage.id stage = stageId)).
  { induction stages as [|st stages IH]; cbn [List.find List.map].
    - intros _. split; [discriminate | intros [H _]; inversion H].
    - intros Hnd. apply NoDup_cons in Hnd as [Hnotin Hnd].
      destruct (str_eqb (Stage.id st) stageId) eqn:E.
      + apply str_eqb_eq in E. split.
        * intros [= <-]. split; [left | exact E].
        * intros [Hin Hid]. apply elem_of_cons in Hin as [->|Hin];
            [reflexivity|].
          exfalso. apply Hnotin. rewrite E, <- Hid.
          now apply list_elem_of_In, List.in_map, list_elem_of_In.
      + rewrite (IH Hnd). split.
        * intros [Hin Hid]. split; [now right | exact Hid].
        * intros [Hin Hid]. apply elem_of_cons in Hin as [->|Hin];
            [|now split].
          apply str_eqb_eq in Hid. congruence. }
  split; [apply Hgen, stage_ids_NoDup|].
  split.
  - intros Hnone st Hst Hid.
    apply list_elem_of_In in Hst.
    apply (List.find_none _ _ Hnone) in Hst.
    apply str_eqb_eq in Hid. congruence.
  - intros Hno.
    destruct (List.find (fun s => str_eqb (Stage.id s) stageId)
                revisionStages) as [st|] eqn:E; [|reflexivity].
    apply List.find_some in E as [Hin Hid].
    apply str_eqb_eq in Hid. exfalso.
    apply (Hno st); [now apply list_elem_of_In | exact Hid].
Qed.

(** X11.  [filteredRevisions] keeps the order of the revisions and is the
    whole list when the search term is empty and the stage is ["all"]; a
    longer search term, or a stage in place of ["all"], only removes
    revisions. *)
Theorem filteredRevisions_only_removes (revisions : list Revision)
  (searchTerm searchTerm' selectedStage : jsstring) :
  filteredRevisions revisions [] all = revisions
  /\ sublist (filteredRevisions revisions searchTerm selectedStage) revisions
  /\ sublist (filteredRevisions revisions searchTerm selectedStage)
       (filteredRevisions revisions searchTerm all)
  /\ (substring_of searchTerm searchTerm' ->
      sublist (filteredRevisions revisions searchTerm' selectedStage)
        (filteredRevisions revisions searchTerm selectedStage)).
Proof.
  unfold filteredRevisions. split; [|split; [|split]].
  - apply List.forallb_filter_id, forallb_forall. intros r _. cbv zeta.
    now rewrite includes_nil.
  - apply sublist_List_filter.
  - erewrite <- List_filter_and; [apply sublist_List_filter|].
    intros r. cbv zeta. rewrite !andb_true_iff. intros [Hs _].
    split; [exact Hs|]. now rewrite str_eqb_refl.
  - intros Hsub.
    erewrite <- List_filter_and; [apply sublist_List_filter|].
    intros r. cbv zeta. rewrite !andb_true_iff, !orb_true_iff.
    intros [[Ht|Hd] Hst]; (split; [|exact Hst]);
      [left | right]; now apply (includes_mono _ searchTerm searchTerm').
Qed.

(** X12.  The badge of a stage is the number of cards shown when that stage
    is selected and the search term is empty, and an upper bound of the
    number of cards shown for that stage with any search term. *)
Theorem badge_counts_cards_of_its_stage (revisions : list Revision)
  (searchTerm : jsstring) (stage : Stage) :
  stage ∈ revisionStages ->
  length (filteredRevisions revisions [] (Stage.id stage))
  = stageCount revisions stage
  /\ (length (filteredRevisions revisions searchTerm (Stage.id stage))
      <= stageCount revisions stage)%nat.
Proof.
  intros Hstage. apply stage_id_not_all in Hstage.
  assert (Hcards : forall term,
            filteredRevisions revisions term (Stage.id stage)
            = List.filter
                (fun r => includes (Revision.title r) term
                          || includes (Revision.description r) term)
                (List.filter
                   (fun r => str_eqb (Revision.stage r) (Stage.id stage))
                   revisions)).
  { intros term. unfold filteredRevisions. rewrite List_filter_filter.
    apply List.filter_ext. intros r. cbv zeta. rewrite Hstage.
    reflexivity. }
  unfold stageCount. rewrite !Hcards. split.
  - f_equal. apply List.forallb_filter_id, forallb_forall. intros r _.
    now rewrite includes_nil.
  - apply List.filter_length_le.
Qed.

Lemma stage_indicator_sum (stageId : jsstring) (stages : list Stage) :
  NoDup (List.map Stage.id stages) ->
  sum_list (List.map (fun st => if str_eqb stageId (Stage.id st)
                                then 1%nat else 0%nat) stages)
  = if existsb (fun st => str_eqb stageId (Stage.id st)) stages
    then 1%nat else 0%nat.
Proof.
  induction stages as [|st stages IH]; [reflexivity|].
  cbn [List.map sum_list existsb]. intros Hnd.
  apply NoDup_cons in Hnd as [Hnotin Hnd]. rewrite (IH Hnd).
  destruct (str_eqb stageId (Stage.id st)) eqn:E; [|reflexivity].
  cbn [orb]. apply str_eqb_eq in E.
  destruct (existsb (fun st => str_eqb stageId (Stage.id st)) stages)
    eqn:Ex; [|reflexivity].
  exfalso. apply existsb_exists in Ex as (st' & Hin & E').
  apply str_eqb_eq in E'. apply Hnotin. rewrite <- E, E'.
  now apply list_elem_of_In, List.in_map.
Qed.

(** X13.  The badges add up to the number of revisions whose stage is in
    the stage table: every such revision is counted by exactly one badge,
    and a revision of an unknown stage by none. *)
Theorem badges_add_up (revisions : list Revision)
  (searchTerm selectedStage : jsstring) :
  sum_list (List.map snd
              (View.badges (render revisions searchTerm selectedStage)))
  = length (List.filter
              (fun r => existsb
                          (fun st => str_eqb (Revision.stage r) (Stage.id st))
                          revisionStages)
              revisions)
  /\ ((forall r, r ∈ revisions ->
         is_Some (getStageInfo (Revision.stage r))) ->
      sum_list (List.map snd
                  (View.badges (render revisions searchTerm selectedStage)))
      = length revisions).
Proof.
  assert (Hsum : forall revs,
            sum_list (List.map (stageCount revs) revisionStages)
            = length (List.filter
                        (fun r => existsb
                                    (fun st => str_eqb (Revision.stage r)
                                                 (Stage.id st))
                                    revisionStages)
                        revs)).
  { induction revs as [|r revs IH]; [reflexivity|].
    cbn [List.filter].
    transitivity
      (sum_list (List.map (fun st => if str_eqb (Revision.stage r) (Stage.id st)
                                     then 1%nat else 0%nat) revisionStages)
       + sum_list (List.map (stageCount revs) revisionStages))%nat.
    - unfold stageCount. cbn [List.filter]. generalize revisionStages.
      induction l as [|st l IHl]; [reflexivity|].
      cbn [List.map sum_list]. rewrite IHl.
      destruct (str_eqb (Revision.stage r) (Stage.id st)); cbn [length];
        unfold id; lia.
    - rewrite IH, (stage_indicator_sum _ _ stage_ids_NoDup).
      destruct (existsb
                  (fun st => str_eqb (Revision.stage r) (Stage.id st))
                  revisionStages); reflexivity. }
  unfold render. cbn [View.badges]. rewrite List.map_map. cbn [snd].
  split; [apply Hsum|].
  intros Hknown. rewrite Hsum. f_equal.
  apply List.forallb_filter_id, forallb_forall. intros r Hr.
  destruct (Hknown r (proj2 (list_elem_of_In _ _) Hr)) as [st Hst].
  apply List.find_some in Hst as [Hin Hid].
  apply existsb_exists. exists st. split; [exact Hin|].
  apply str_eqb_eq. apply str_eqb_eq in Hid. congruence.
Qed.

Lemma sample_ids_NoDup : NoDup (List.map Revision.id sampleRevisions).
Proof.
  cbn [List.map sampleRevisions Revision.id].
  repeat (apply NoDup_cons; split;
          [rewrite ?elem_of_cons; intros H; decompose [or] H;
           try discriminate;
           match goal with H : _ ∈ [] |- _ => inversion H end|]).
  apply NoDup_nil. exact I.
Qed.

Lemma NoDup_map_injective {A B} (f : A -> B) (l : list A) :
  NoDup (List.map f l) ->
  forall x y, x ∈ l -> y ∈ l -> f x = f y -> x = y.
Proof.
  induction l as [|a l IH]; cbn [List.map]; intros Hnd x y Hx Hy E.
  - inversion Hx.
  - apply NoDup_cons in Hnd as [Hnotin Hnd].
    apply elem_of_cons in Hx as [->|Hx], Hy as [->|Hy].
    + reflexivity.
    + exfalso. apply Hnotin. rewrite E.
      now apply list_elem_of_In, List.in_map, list_elem_of_In.
    + exfalso. apply Hnotin. rewrite <- E.
      now apply list_elem_of_In, List.in_map, list_elem_of_In.
    + now apply IH.
Qed.

Lemma offered_revision_is_sample (s : State) (revision : Revision) :
  offered s (RevisionClick revision) -> revision ∈ sampleRevisions.
Proof.
  unfold offered, cards. intros H.
  apply elem_of_filteredRevisions in H. exact (proj1 H).
Qed.

(** X14.  In every state the page can reach, the selected stage is one of
    the values of the select, the expanded revision, if any, is a sample
    revision, and at most one card is expanded. *)
Theorem reachable_state_invariant (s : State) :
  reachable s ->
  selectedStage s ∈ stageOptions
  /\ (forall id, expandedRevision s = Some id ->
        exists r, r ∈ sampleRevisions /\ Revision.id r = id)
  /\ (forall r r', r ∈ sampleRevisions -> r' ∈ sampleRevisions ->
        isExpanded s r = true -> isExpanded s r' = true -> r = r').
Proof.
  intros Hreach.
  assert (Hone : forall r r', r ∈ sampleRevisions -> r' ∈ sampleRevisions ->
            isExpanded s r = true -> isExpanded s r' = true -> r = r').
  { intros r r' Hr Hr'. unfold isExpanded.
    destruct (expandedRevision s) as [id|]; [|discriminate].
    rewrite !Z.eqb_eq. intros -> E.
    exact (NoDup_map_injective Revision.id sampleRevisions
             sample_ids_NoDup r r' Hr Hr' E). }
  split; [|split; [|exact Hone]]; clear Hone.
  - induction Hreach as [|s e _ IH Hoff]; [left|].
    destruct e;
      cbn [handle onSearchChange onStageChange onDetailsClick onStageClick
           onRevisionClick selectedStage offered] in *;
      try exact IH; try exact Hoff.
    destruct (str_eqb (selectedStage s) (Stage.id stage)); [left|].
    right. apply list_elem_of_In, List.in_map, list_elem_of_In. exact Hoff.
  - induction Hreach as [|s e _ IH Hoff].
    { intros id H. discriminate H. }
    destruct e;
      cbn [handle onSearchChange onStageChange onDetailsClick onStageClick
           onRevisionClick expandedRevision];
      try exact IH.
    intros id H. destruct (isExpanded s revision); [discriminate H|].
    injection H as <-. exists revision. split; [|reflexivity].
    exact (offered_revision_is_sample s revision Hoff).
Qed.

(** X15.  Clicking a stage button selects that stage, or clears the
    selection when that stage was selected: after the click of an
    unselected stage the cards are the revisions of that stage matching the
    search term, and a second click on it shows those of all stages
    again. *)
Theorem stage_button_toggles_the_filter (s : State) (stage : Stage) :
  stage ∈ revisionStages ->
  selectedStage s <> Stage.id stage ->
  selectedStage (onStageClick stage s) = Stage.id stage
  /\ cards (onStageClick stage s)
     = List.filter (fun r => str_eqb (Revision.stage r) (Stage.id stage))
         (filteredRevisions sampleRevisions (searchTerm s) all)
  /\ selectedStage (onStageClick stage (onStageClick stage s)) = all
  /\ cards (onStageClick stage (onStageClick stage s))
     = filteredRevisions sampleRevisions (searchTerm s) all.
Proof.
  intros Hstage Hsel.
  assert (Hne : str_eqb (selectedStage s) (Stage.id stage) = false).
  { destruct (str_eqb _ _) eqn:E; [|reflexivity].
    now apply str_eqb_eq in E. }
  assert (H1 : selectedStage (onStageClick stage s) = Stage.id stage)
    by (unfold onStageClick; cbn [selectedStage]; now rewrite Hne).
  assert (H2 : selectedStage (onStageClick stage (onStageClick stage s)) = all).
  { unfold onStageClick at 1. cbn [selectedStage].
    now rewrite H1, str_eqb_refl. }
  split; [exact H1|]. split; [|split; [exact H2|]].
  - unfold cards. rewrite H1. cbn [searchTerm onStageClick].
    unfold filteredRevisions. rewrite List_filter_filter.
    apply List.filter_ext. intros r. cbv zeta.
    rewrite (stage_id_not_all stage Hstage), str_eqb_refl.
    cbn [orb]. rewrite andb_true_r. apply andb_comm.
  - unfold cards. now rewrite H2.
Qed.

End MoreSampleComponent.

(** ** Instances of the further properties *)

Lemma promulgated_stage_listed :
  Fixture.promulgated_stage ∈ SafetyLawTracker.revisionStages.
Proof. do 3 right. left. Defined.

Lemma filter_never_reorders_witness :
  LawTracker.filtered IsoDate.date_only Fixture.snapshot (js "化学物質")
    (js "promulgated") LawTracker.all Fixture.now
  = List.filter
      (Query.satisfies (js "化学物質") (js "promulgated") LawTracker.all)
      (LawTracker.filtered IsoDate.date_only Fixture.snapshot []
         LawTracker.all LawTracker.all Fixture.now).
Proof.
  apply (proj1 (filter_never_reorders IsoDate.date_only Fixture.snapshot
                  (js "化学物質") (js "promulgated") LawTracker.all
                  Fixture.now fixture_dates_ok)).
Defined.

Lemma narrower_filter_gives_sublist_witness :
  sublist
    (LawTracker.filtered IsoDate.date_only Fixture.snapshot
       (js "化学物質管理") (js "promulgated") (js "ACT_NOW") Fixture.now)
    (LawTracker.filtered IsoDate.date_only Fixture.snapshot (js "化学物質")
       LawTracker.all LawTracker.all Fixture.now).
Proof.
  apply (narrower_filter_gives_sublist IsoDate.date_only Fixture.snapshot
           (js "化学物質") (js "化学物質管理") LawTracker.all
           (js "promulgated") LawTracker.all (js "ACT_NOW") Fixture.now).
  - exact fixture_dates_ok.
  - exists [], (js "管理"). vm_compute. reflexivity.
  - left. reflexivity.
  - left. reflexivity.
Defined.

Lemma empty_notice_iff_nothing_matches_witness :
  LawTrackerView.showsEmptyNotice
    (LawTracker.filtered IsoDate.date_only [Some Fixture.older; None]
       (js "化学物質") LawTracker.all LawTracker.all Fixture.now) = true.
Proof.
  apply (proj1 (empty_notice_iff_nothing_matches IsoDate.date_only
                  [Some Fixture.older; None] (js "化学物質") LawTracker.all
                  LawTracker.all Fixture.now)).
  intros it Hit. apply elem_of_cons in Hit as [E|Hit].
  - injection E as ->. vm_compute. reflexivity.
  - apply elem_of_cons in Hit as [E|Hit]; [discriminate E | inversion Hit].
Defined.

Lemma null_entries_are_ignored_witness :
  LawTracker.filtered IsoDate.date_only
    ([Some Fixture.older] ++ None :: [Some Fixture.urgent]) []
    LawTracker.all LawTracker.all Fixture.now
  = LawTracker.filtered IsoDate.date_only
      ([Some Fixture.older] ++ [Some Fixture.urgent]) []
      LawTracker.all LawTracker.all Fixture.now.
Proof.
  apply (null_entries_are_ignored IsoDate.date_only [Some Fixture.older]
           [Some Fixture.urgent] [] LawTracker.all LawTracker.all
           Fixture.now).
Defined.

Lemma surrounding_white_space_is_ignored_witness :
  LawTracker.filtered IsoDate.date_only Fixture.snapshot (js " 　 ")
    (js "promulgated") LawTracker.all Fixture.now
  = LawTracker.filtered IsoDate.date_only Fixture.snapshot []
      (js "promulgated") LawTracker.all Fixture.now.
Proof.
  apply (proj2 (surrounding_white_space_is_ignored IsoDate.date_only
                  Fixture.snapshot (js " 　 ") (js "promulgated")
                  LawTracker.all Fixture.now)).
  vm_compute. reflexivity.
Defined.

Lemma displayed_text_is_searchable_witness :
  MoreFixture.summarised
    ∈ LawTracker.filtered IsoDate.date_only
        [Some Fixture.older; Some MoreFixture.summarised]
        (js "罰則の新設") LawTracker.all LawTracker.all Fixture.now
  /\ (length (LawTrackerView.summaryBullets MoreFixture.summarised) <= 3)%nat.
Proof.
  apply (displayed_text_is_searchable IsoDate.date_only
           [Some Fixture.older; Some MoreFixture.summarised] Fixture.now
           MoreFixture.summarised (js "罰則の新設")).
  - right. left.
  - right. left. vm_compute. do 2 right. left.
  - vm_compute. discriminate.
Defined.

Lemma textless_record_never_matches_a_search_witness :
  ~ MoreFixture.textless
      ∈ LawTracker.filtered IsoDate.date_only
          [Some MoreFixture.textless; Some Fixture.older] (js "改正")
          LawTracker.all LawTracker.all Fixture.now.
Proof.
  apply (textless_record_never_matches_a_search IsoDate.date_only
           [Some MoreFixture.textless; Some Fixture.older] (js "改正")
           LawTracker.all LawTracker.all Fixture.now MoreFixture.textless).
  - vm_compute. reflexivity.
  - vm_compute. discriminate.
Defined.

Lemma daysBetween_symmetric_nonnegative_witness :
  LawTracker.daysBetween IsoDate.date_only (js "2025-05-22") Fixture.now
  = LawTracker.daysBetween IsoDate.date_only Fixture.now (js "2025-05-22").
Proof.
  apply (proj1 (daysBetween_symmetric_nonnegative IsoDate.date_only
                  (js "2025-05-22") Fixture.now)).
Defined.

Lemma score_encodes_tier_and_recency_witness :
  1000 <= 2090 <= 4100
  /\ 2090 / 1000 = LawTracker.actScore Fixture.recent
  /\ LawTracker.recency IsoDate.date_only Fixture.now Fixture.recent
     = Some (2090 mod 1000).
Proof.
  destruct (score_encodes_tier_and_recency IsoDate.date_only Fixture.now
              Fixture.recent 2090) as (H1 & H2 & H3 & _).
  - vm_compute. reflexivity.
  - split; [exact H1|]. split; [exact H2 | exact H3].
Defined.

Lemma getStageInfo_finds_exactly_the_stage_witness :
  Fixture.promulgated_stage ∈ SafetyLawTracker.revisionStages
  /\ SafetyLawTracker.Stage.id Fixture.promulgated_stage = js "promulgated".
Proof.
  apply (proj1 (proj1 (getStageInfo_finds_exactly_the_stage
                         (js "promulgated") Fixture.promulgated_stage))).
  vm_compute. reflexivity.
Defined.

Lemma filteredRevisions_only_removes_witness :
  sublist
    (SafetyLawTracker.filteredRevisions SafetyLawTracker.sampleRevisions
       (js "化学物質による") (js "enforced"))
    (SafetyLawTracker.filteredRevisions SafetyLawTracker.sampleRevisions
       (js "化学物質") (js "enforced")).
Proof.
  apply (proj2 (proj2 (proj2
           (filteredRevisions_only_removes SafetyLawTracker.sampleRevisions
              (js "化学物質") (js "化学物質による") (js "enforced"))))).
  exists [], (js "による"). vm_compute. reflexivity.
Defined.

Lemma badge_counts_cards_of_its_stage_witness :
  length
    (SafetyLawTracker.filteredRevisions SafetyLawTracker.sampleRevisions []
       (SafetyLawTracker.Stage.id Fixture.promulgated_stage))
  = SafetyLawTracker.stageCount SafetyLawTracker.sampleRevisions
      Fixture.promulgated_stage.
Proof.
  apply (proj1 (badge_counts_cards_of_its_stage
                  SafetyLawTracker.sampleRevisions []
                  Fixture.promulgated_stage
                  promulgated_stage_listed)).
Defined.

Lemma badges_add_up_witness :
  sum_list
    (List.map snd
       (SafetyLawTracker.View.badges
          (SafetyLawTracker.render SafetyLawTracker.sampleRevisions
             (js "化学物質") (js "enforced"))))
  = length SafetyLawTracker.sampleRevisions.
Proof.
  apply (proj2 (badges_add_up SafetyLawTracker.sampleRevisions
                  (js "化学物質") (js "enforced"))).
  intros r Hr. unfold SafetyLawTracker.sampleRevisions in Hr.
  repeat (apply elem_of_cons in Hr as [->|Hr];
          [eexists; vm_compute; reflexivity|]).
  inversion Hr.
Defined.

Lemma reachable_state_invariant_witness :
  SafetyLawTrackerState.selectedStage
    (SafetyLawTrackerState.handle
       (SafetyLawTrackerState.StageClick Fixture.promulgated_stage)
       SafetyLawTrackerState.initial)
  ∈ SafetyLawTrackerState.stageOptions.
Proof.
  apply (proj1 (reachable_state_invariant _
                  (SafetyLawTrackerState.reachable_handle
                     SafetyLawTrackerState.initial
                     (SafetyLawTrackerState.StageClick
                        Fixture.promulgated_stage)
                     SafetyLawTrackerState.reachable_initial
                     promulgated_stage_listed))).
Defined.

Lemma stage_button_toggles_the_filter_witness :
  SafetyLawTrackerState.selectedStage
    (SafetyLawTrackerState.onStageClick Fixture.promulgated_stage
       SafetyLawTrackerState.initial)
  = js "promulgated"
  /\ SafetyLawTrackerState.selectedStage
       (SafetyLawTrackerState.onStageClick Fixture.promulgated_stage
          (SafetyLawTrackerState.onStageClick Fixture.promulgated_stage
             SafetyLawTrackerState.initial))
     = js "all".
Proof.
  destruct (stage_button_toggles_the_filter SafetyLawTrackerState.initial
              Fixture.promulgated_stage) as (H1 & _ & H2 & _).
  - exact promulgated_stage_listed.
  - vm_compute. discriminate.
  - split; [exact H1 | exact H2].
Defined.
